(** * NESEMU: the NES core of clientv0.py

    A shallow embedding of class [NES] (memory, CPU registers, cartridge
    loader, fetch loop, start/stop) and the properties of its
    specification.  The Tk front end ([NesticleGUI]) only calls into the
    core and is not modelled; calls to [logger] and [time.sleep] do not
    touch the state of the object and are left out of the sequential
    model. *)

From Stdlib Require Import ZArith Lia.
From Stdlib Require Import Strings.Byte.
From stdpp Require Import base list strings.

Local Open Scope Z_scope.

(** ** Python values *)

(** A [bytes] object; indexing it yields an [int] in 0..255. *)
Abbreviation bytes := (list byte).

Definition byte_val (b : byte) : Z := Z.of_N (Byte.to_N b).

#[global] Instance byte_eq_decision : EqDecision byte := Byte.byte_eq_dec.

(** [len(l)] *)
Abbreviation len l := (Z.of_nat (length l)).

(** [l[lo:hi]] for non-negative bounds: clipped to the list, never raises. *)
Definition slice {T : Type} (l : list T) (lo hi : Z) : list T :=
  take (Z.to_nat (hi - lo)) (drop (Z.to_nat lo) l).

(** [l[i]]: a negative index counts from the end; [None] stands for
    [IndexError]. *)
Definition getitem {T : Type} (l : list T) (i : Z) : option T :=
  let j := if i <? 0 then i + len l else i in
  if j <? 0 then None else l !! Z.to_nat j.

(** [l[i] = v] on a Python list: same indexing rule, the list keeps its
    length. *)
Definition setitem {T : Type} (l : list T) (i : Z) (v : T) : option (list T) :=
  let j := if i <? 0 then i + len l else i in
  if (0 <=? j) && (j <? len l) then Some (<[Z.to_nat j := v]> l) else None.

(** ** The object state *)

Record NES : Type := mkNES {
  memory : list Z;
  pc : Z;
  sp : Z;
  A : Z;
  X : Z;
  Y : Z;
  P : Z;
  running : bool;
  thread : option nat
}.

Definition set_memory (m : list Z) (s : NES) : NES :=
  mkNES m (pc s) (sp s) (A s) (X s) (Y s) (P s) (running s) (thread s).
Definition set_pc (v : Z) (s : NES) : NES :=
  mkNES (memory s) v (sp s) (A s) (X s) (Y s) (P s) (running s) (thread s).
Definition set_sp (v : Z) (s : NES) : NES :=
  mkNES (memory s) (pc s) v (A s) (X s) (Y s) (P s) (running s) (thread s).
Definition set_A (v : Z) (s : NES) : NES :=
  mkNES (memory s) (pc s) (sp s) v (X s) (Y s) (P s) (running s) (thread s).
Definition set_X (v : Z) (s : NES) : NES :=
  mkNES (memory s) (pc s) (sp s) (A s) v (Y s) (P s) (running s) (thread s).
Definition set_Y (v : Z) (s : NES) : NES :=
  mkNES (memory s) (pc s) (sp s) (A s) (X s) v (P s) (running s) (thread s).
Definition set_P (v : Z) (s : NES) : NES :=
  mkNES (memory s) (pc s) (sp s) (A s) (X s) (Y s) v (running s) (thread s).
Definition set_running (v : bool) (s : NES) : NES :=
  mkNES (memory s) (pc s) (sp s) (A s) (X s) (Y s) (P s) v (thread s).
Definition set_thread (v : option nat) (s : NES) : NES :=
  mkNES (memory s) (pc s) (sp s) (A s) (X s) (Y s) (P s) (running s) v.

(** [NES.__init__] *)
Definition init : NES :=
  {| memory := replicate (Z.to_nat 0x10000) 0;
     pc := 0;
     sp := 0xFD;
     A := 0; X := 0; Y := 0; P := 0;
     running := false;
     thread := None |}.

(** ** Methods run in a state-and-exception monad

    A method either returns a value or raises; in both cases the fields
    assigned so far keep their new values, so the state is threaded
    through the failure as well. *)

Inductive exn : Type := IndexError.

Inductive outcome (T : Type) : Type :=
  | Ret (v : T)
  | Raise (e : exn).
Arguments Ret {T} v.
Arguments Raise {T} e.

Definition M (T : Type) : Type := NES -> outcome T * NES.

Definition ret {T : Type} (v : T) : M T := fun s => (Ret v, s).

Definition bind {T U : Type} (m : M T) (k : T -> M U) : M U :=
  fun s => match m s with
           | (Ret v, s') => k v s'
           | (Raise e, s') => (Raise e, s')
           end.

Definition gets {T : Type} (f : NES -> T) : M T := fun s => (Ret (f s), s).

Definition modify (f : NES -> NES) : M unit := fun s => (Ret tt, f s).

Definition lift_option {T : Type} (o : option T) : M T :=
  fun s => match o with
           | Some v => (Ret v, s)
           | None => (Raise IndexError, s)
           end.

Declare Scope nes_scope.
Delimit Scope nes_scope with nes.
Notation "x <- m ;; k" := (bind m (fun x => k))
  (at level 100, m at next level, right associativity) : nes_scope.
Notation "m ;; k" := (bind m (fun _ => k))
  (at level 100, right associativity) : nes_scope.
Local Open Scope nes_scope.

(** [self.memory[i]] and [self.memory[i] = v] *)
Definition mem_get (i : Z) : M Z :=
  m <- gets memory ;; lift_option (getitem m i).

Definition mem_set (i : Z) (v : Z) : M unit :=
  m <- gets memory ;;
  m' <- lift_option (setitem m i v) ;;
  modify (set_memory m').

(** [for i in range(n): body(i)] *)
Fixpoint for_range_from (start : Z) (n : nat) (body : Z -> M unit) : M unit :=
  match n with
  | O => ret tt
  | S n' => body start ;; for_range_from (start + 1) n' body
  end.

Definition for_range (n : Z) (body : Z -> M unit) : M unit :=
  for_range_from 0 (Z.to_nat n) body.

(** ** CPU and memory methods *)

Definition read_byte (addr : Z) : M Z :=
  let addr := Z.land addr 0xFFFF in
  mem_get addr.

Definition write_byte (addr value : Z) : M unit :=
  let addr := Z.land addr 0xFFFF in
  let value := Z.land value 0xFF in
  mem_set addr value.

Definition fetch_byte : M Z :=
  modify (fun s => set_pc (Z.land (pc s) 0xFFFF) s) ;;
  p <- gets pc ;;
  byte <- mem_get p ;;
  modify (fun s => set_pc (Z.land (pc s + 1) 0xFFFF) s) ;;
  ret byte.

Definition reset : M unit :=
  modify (fun s => set_A 0 (set_X 0 (set_Y 0 s))) ;;
  modify (set_sp 0xFD) ;;
  modify (set_P 0x04) ;;
  low <- read_byte 0xFFFC ;;
  high <- read_byte 0xFFFD ;;
  modify (set_pc (Z.lor (Z.shiftl high 8) low)).

(** ** The cartridge loader *)

(** [b'NES\x1A'] *)
Definition magic : bytes := [x4e; x45; x53; x1a]%byte.

(** Copies [bank] to [self.memory[base + i]], one index at a time. *)
Definition copy_bank (base : Z) (bank : bytes) : M unit :=
  for_range (len bank) (fun i =>
    b <- lift_option (getitem bank i) ;;
    mem_set (base + i) (byte_val b)).

(** [load_rom(path)].  The argument is what [open(path).read()] gave:
    [None] when it raised (the only part under [try]), the file's
    contents otherwise. *)
Definition load_rom (file : option bytes) : M bool :=
  match file with
  | None => ret false
  | Some data =>
    if (len data <? 16) || negb (bool_decide (slice data 0 4 = magic))
    then ret false
    else
      b4 <- lift_option (getitem data 4) ;;
      let prg_banks := byte_val b4 in
      let offset := 16 in
      let prg_size := prg_banks * 16384 in
      if len data <? offset + prg_size
      then ret false
      else
        let bank1 := slice data offset (offset + 16384) in
        copy_bank 0x8000 bank1 ;;
        (if prg_banks =? 1
         then copy_bank 0xC000 bank1
         else
           let bank2 := slice data (offset + 16384) (offset + 32768) in
           copy_bank 0xC000 bank2) ;;
        reset ;;
        ret true
  end.

(** ** The fetch loop, run alone *)

(** One iteration of the [while] body of [emulator_loop]; the value is the
    opcode it fetched. *)
Definition loop_body : M Z :=
  opcode <- fetch_byte ;;
  (if opcode =? 0x00 then modify (set_running false) else ret tt) ;;
  ret opcode.

(** [emulator_loop] as the body of its thread with nobody else touching
    the object: the result is the list of opcodes it fetched, in order,
    and the state it ends in.  [fuel] bounds the number of iterations;
    [None] means the bound was reached with the loop still running.  An
    exception inside [try] clears [running] and ends the loop. *)
Fixpoint emulator_loop (fuel : nat) (s : NES) : option (list Z * NES) :=
  match fuel with
  | O => None
  | S fuel' =>
    if running s then
      match loop_body s with
      | (Ret opcode, s1) =>
        match emulator_loop fuel' s1 with
        | Some (fetched, s2) => Some (opcode :: fetched, s2)
        | None => None
        end
      | (Raise _, s1) => Some ([], set_running false s1)
      end
    else Some ([], s)
  end.

(** ** Invariants of the object *)

(** The memory is the 64KB list [__init__] allocates; no method changes
    its length. *)
Definition mem_ok (s : NES) : Prop := len (memory s) = 0x10000.

(** Every cell holds a byte. *)
Definition cells_ok (s : NES) : Prop :=
  forallb (fun v => (0 <=? v) && (v <? 256)) (memory s) = true.

Definition pc_ok (s : NES) : Prop := 0 <= pc s <= 65535.


(** ** Sample states and inputs *)

(** A fresh object whose reset vector holds 0x00 (low), 0x90 (high). *)
Definition vector_9000 : NES :=
  set_memory (<[Z.to_nat 0xFFFD := 0x90]> (memory init)) init.

(** A fresh object with the program counter on the last address. *)
Definition pc_at_top : NES := set_pc 0xFFFF init.

(** Cartridge images: the 16-byte header (magic, bank count, padding)
    followed by the program banks. *)
Definition header (banks : byte) : bytes :=
  magic ++ [banks] ++ replicate 11 x00%byte.

Definition rom_16k : bytes :=
  header x01%byte ++ replicate (Z.to_nat 16384) xea%byte.

Definition rom_32k : bytes :=
  header x02%byte ++ replicate (Z.to_nat 16384) xea%byte
                  ++ replicate (Z.to_nat 16384) x60%byte.

(** A header that announces one bank and carries none. *)
Definition rom_truncated : bytes := header x01%byte.

(** A header that announces no bank at all. *)
Definition rom_no_prg : bytes := header x00%byte.

(** A fresh object whose thread was just started: memory all zero, so the
    byte at PC is the halt opcode. *)
Definition started : NES := set_running true init.

(** ** start, stop and the loop thread, interleaved

    The caller's thread and the threads running [emulator_loop] share the
    object.  A loop thread is at one of three places: about to test
    [while self.running], inside [time.sleep], or past the end of the
    function.  Its atomic actions are "test and run one iteration up to
    the sleep", and "wake up"; the caller's are a whole [start()], the
    part of [stop()] before [join], and the return of [join].  Real
    threads can be switched at more places than these, so every
    interleaving below is one the program has; the converse is not
    claimed. *)

Inductive loop_pc : Type :=
  | AtWhile
  | AtSleep
  | Exited.

(** [Thread.is_alive()] *)
Definition alive (l : loop_pc) : bool :=
  match l with
  | Exited => false
  | _ => true
  end.

(** What the calling thread has left to do: calls of [start()] and
    [stop()], and the [join] a [stop()] is blocked in. *)
Inductive call : Type :=
  | CallStart
  | CallStop
  | Join (t : nat).

Record world : Type := mkWorld {
  nes : NES;
  threads : list loop_pc;
  caller : list call
}.

Definition set_caller (k : list call) (w : world) : world :=
  mkWorld (nes w) (threads w) k.

(** One atomic action of a thread running [emulator_loop]; [None] when
    the thread has ended. *)
Definition loop_step (l : loop_pc) (s : NES) : option (loop_pc * NES) :=
  match l with
  | AtWhile =>
    if running s then
      match loop_body s with
      | (Ret _, s1) => Some (AtSleep, s1)
      | (Raise _, s1) => Some (Exited, set_running false s1)
      end
    else Some (Exited, s)
  | AtSleep => Some (AtWhile, s)
  | Exited => None
  end.

(** [start()]: the new [Thread] object gets the next index and begins at
    the top of [emulator_loop]. *)
Definition start (w : world) : world :=
  if running (nes w) then w
  else
    let t := length (threads w) in
    {| nes := set_thread (Some t) (set_running true (nes w));
       threads := threads w ++ [AtWhile];
       caller := caller w |}.

(** [stop()] up to [self.thread.join()]: the state it leaves and the
    thread it then waits for, if any. *)
Definition stop (w : world) : world * option nat :=
  if negb (running (nes w)) then (w, None)
  else
    (mkWorld (set_running false (nes w)) (threads w) (caller w),
     thread (nes w)).

(** The next action of the calling thread; [None] when it has nothing
    left to do or is blocked in [join] on a live thread. *)
Definition caller_step (w : world) : option world :=
  match caller w with
  | [] => None
  | CallStart :: k => Some (set_caller k (start w))
  | CallStop :: k =>
    let '(w', j) := stop w in
    Some (set_caller (match j with Some t => Join t :: k | None => k end) w')
  | Join t :: k =>
    match threads w !! t with
    | Some Exited => Some (set_caller k w)
    | _ => None
    end
  end.

Inductive who : Type :=
  | Caller
  | Loop (t : nat).

Definition step (x : who) (w : world) : option world :=
  match x with
  | Caller => caller_step w
  | Loop t =>
    match threads w !! t with
    | Some l =>
      match loop_step l (nes w) with
      | Some (l', s') => Some (mkWorld s' (<[t := l']> (threads w)) (caller w))
      | None => None
      end
    | None => None
    end
  end.

(** Runs the threads in the order the schedule gives. *)
Fixpoint run (sched : list who) (w : world) : option world :=
  match sched with
  | [] => Some w
  | x :: rest =>
    match step x w with
    | Some w' => run rest w'
    | None => None
    end
  end.

(** A fresh object and a caller about to make the calls of [script]. *)
Definition boot (script : list call) : world := mkWorld init [] script.

(** The number of loop threads that have not ended. *)
Definition live_threads (w : world) : nat :=
  length (filter (fun l => alive l = true) (threads w)).

(** A loop thread stepping with nobody else touching the object, until it
    has ended; [None] when [fuel] steps were not enough. *)
Fixpoint thread_alone (fuel : nat) (l : loop_pc) (s : NES) : option NES :=
  match fuel with
  | O => None
  | S fuel' =>
    match loop_step l s with
    | Some (l', s') => thread_alone fuel' l' s'
    | None => Some s
    end
  end.

(** ** Reading a cartridge image *)

(** The three checks of [load_rom] on the contents of a file: at least
    16 bytes, the magic, and room for the banks the header announces. *)
Definition well_formed (data : bytes) : bool :=
  (16 <=? len data) &&
  bool_decide (slice data 0 4 = magic) &&
  match data !! 4%nat with
  | Some b => 16 + byte_val b * 16384 <=? len data
  | None => false
  end.

(** [data[4]], the number of banks the header announces (0 when the file
    has no such byte). *)
Definition prg_banks (data : bytes) : Z :=
  match data !! 4%nat with
  | Some b => byte_val b
  | None => 0
  end.

(** The byte of the file at offset [i], as an integer (0 past the end). *)
Definition file_byte (data : bytes) (i : Z) : Z :=
  match data !! Z.to_nat i with
  | Some b => byte_val b
  | None => 0
  end.

(** An image of three banks; the loader maps the first two. *)
Definition rom_48k : bytes :=
  header x03%byte ++ replicate (Z.to_nat 16384) xea%byte
                  ++ replicate (Z.to_nat 16384) x60%byte
                  ++ replicate (Z.to_nat 16384) x4c%byte.

(** ** Looking at a state *)

(** The byte [read_byte a] returns: the cell [a mod 65536] (0 if the
    memory were too short to have it). *)
Definition peek (s : NES) (a : Z) : Z :=
  default 0 (memory s !! Z.to_nat (a mod 65536)).

(** A started object whose memory holds no halt opcode at all. *)
Definition nop_sled : NES :=
  set_running true (set_memory (replicate (Z.to_nat 0x10000) 0xEA) init).

(** A started object with two non-zero bytes at PC and the halt opcode
    after them. *)
Definition two_then_halt : NES :=
  set_running true
    (set_memory (<[1%nat := 0x60]> (<[0%nat := 0xEA]> (memory init))) init).

(** ** The window (class NesticleGUI)

    The window owns one [NES] and three buttons.  "Load ROM" is always
    enabled; the state of the other two and the text put into the
    console are kept here.  The Tk thread is the [caller] of the
    [world]: it is idle in [mainloop] when it has nothing to do, and it
    sits in [Join t] while [stop_emulator] waits inside [nes.stop()].
    A disabled button does not run its command. *)

Module GUI.

Inductive widget_state : Type :=
  | NORMAL
  | DISABLED.

Record t : Type := mk {
  machine : world;
  start_btn : widget_state;
  stop_btn : widget_state;
  console : list string
}.

Definition set_machine (w : world) (g : t) : t :=
  mk w (start_btn g) (stop_btn g) (console g).
Definition set_start_btn (v : widget_state) (g : t) : t :=
  mk (machine g) v (stop_btn g) (console g).
Definition set_stop_btn (v : widget_state) (g : t) : t :=
  mk (machine g) (start_btn g) v (console g).

(** [__init__] and [setup_ui]: a fresh [NES], both buttons disabled,
    an empty console. *)
Definition init : t := mk (boot []) DISABLED DISABLED [].

Definition newline : string := String (Ascii.ascii_of_nat 10) EmptyString.

(** [log_message]: the console is the list of the texts inserted at
    its end. *)
Definition log_message (message : string) (g : t) : t :=
  mk (machine g) (start_btn g) (stop_btn g)
     (console g ++ [message +:+ newline]).

(** [load_rom]: [rom_path] is what the file dialog returned (empty when
    it was cancelled), [file] what reading that path gives.  An
    exception of [nes.load_rom] leaves the handler before it touches a
    widget. *)
Definition load_rom (rom_path : string) (file : option bytes) (g : t) : t :=
  if bool_decide (rom_path = "")
  then log_message "Failed to load ROM." g
  else
    let w := machine g in
    match load_rom file (nes w) with
    | (Ret true, s') =>
      log_message "ROM Loaded Successfully!"
        (set_start_btn NORMAL
           (set_machine (mkWorld s' (threads w) (caller w)) g))
    | (Ret false, s') =>
      log_message "Failed to load ROM."
        (set_machine (mkWorld s' (threads w) (caller w)) g)
    | (Raise _, s') =>
      set_machine (mkWorld s' (threads w) (caller w)) g
    end.

Definition start_emulator (g : t) : t :=
  log_message "Emulator Started!"
    (set_start_btn DISABLED
       (set_stop_btn NORMAL (set_machine (start (machine g)) g))).

(** [stop_emulator] after [nes.stop()] has returned. *)
Definition stop_emulator_finish (g : t) : t :=
  log_message "Emulator Stopped."
    (set_start_btn NORMAL (set_stop_btn DISABLED g)).

(** [stop_emulator]: when [nes.stop()] has to join a thread the handler
    is suspended there, otherwise it runs to its end. *)
Definition stop_emulator (g : t) : t :=
  let '(w', j) := stop (machine g) in
  match j with
  | Some th => set_machine (set_caller [Join th] w') g
  | None => stop_emulator_finish (set_machine w' g)
  end.

Inductive event : Type :=
  | LoadClicked (rom_path : string) (file : option bytes)
  | StartClicked
  | StopClicked
  | JoinReturns
  | ThreadRuns (th : nat).

Definition idle (g : t) : bool :=
  match caller (machine g) with
  | [] => true
  | _ => false
  end.

Definition enabled (v : widget_state) : bool :=
  match v with
  | NORMAL => true
  | DISABLED => false
  end.

(** What one event does; [None] when it cannot happen in this state
    (a click on a disabled button or while the Tk thread is blocked, a
    join on a live thread, a step of a thread that has ended). *)
Definition handle (e : event) (g : t) : option t :=
  match e with
  | LoadClicked rom_path file =>
    if idle g then Some (load_rom rom_path file g) else None
  | StartClicked =>
    if idle g && enabled (start_btn g) then Some (start_emulator g) else None
  | StopClicked =>
    if idle g && enabled (stop_btn g) then Some (stop_emulator g) else None
  | JoinReturns =>
    match caller (machine g) with
    | [Join _] =>
      match caller_step (machine g) with
      | Some w' => Some (stop_emulator_finish (set_machine w' g))
      | None => None
      end
    | _ => None
    end
  | ThreadRuns th =>
    match step (Loop th) (machine g) with
    | Some w' => Some (set_machine w' g)
    | None => None
    end
  end.

Fixpoint run (events : list event) (g : t) : option t :=
  match events with
  | [] => Some g
  | e :: rest =>
    match handle e g with
    | Some g' => run rest g'
    | None => None
    end
  end.

(** The event is a click on "Load ROM" that picks a well-formed file. *)
Definition good_load (e : event) : bool :=
  match e with
  | LoadClicked rom_path (Some data) =>
    negb (bool_decide (rom_path = "")) && well_formed data
  | _ => false
  end.

End GUI.

(** The window after "Load ROM" picked the one-bank image, and after
    "Start" was then clicked. *)
Abbreviation gui_loaded :=
  (GUI.load_rom "game.nes" (Some rom_16k) GUI.init).

Abbreviation gui_started := (GUI.start_emulator gui_loaded).

(** The world right after [start()] on a fresh object, with [stop()] as
    the caller's next call, and the world once that [stop()] is over. *)
Definition start_done : world :=
  mkWorld (set_thread (Some 0%nat) (set_running true init)) [AtWhile] [CallStop].

Definition stop_done : world :=
  mkWorld (set_running false (nes start_done)) [Exited] [].

(** * Properties *)

(** ** Indexing and masking *)

Lemma getitem_in_range {T : Type} (l : list T) (i : Z) :
  0 <= i -> getitem l i = l !! Z.to_nat i.
Proof.
  intros Hi. unfold getitem.
  destruct (Z.ltb_spec i 0) as [?|_]; [lia|].
  destruct (Z.ltb_spec i 0) as [?|_]; [lia|]. reflexivity.
Qed.

Lemma setitem_in_range {T : Type} (l : list T) (i : Z) (v : T) :
  0 <= i < len l -> setitem l i v = Some (<[Z.to_nat i := v]> l).
Proof.
  intros Hi. unfold setitem.
  destruct (Z.ltb_spec i 0) as [?|_]; [lia|].
  destruct (Z.leb_spec 0 i) as [_|?]; [|lia].
  destruct (Z.ltb_spec i (len l)) as [_|?]; [|lia]. reflexivity.
Qed.

Lemma land_FFFF (a : Z) : Z.land a 0xFFFF = a mod 65536.
Proof. change 0xFFFF with (Z.ones 16). rewrite Z.land_ones by lia. reflexivity. Qed.

Lemma land_FF (v : Z) : Z.land v 0xFF = v mod 256.
Proof. change 0xFF with (Z.ones 8). rewrite Z.land_ones by lia. reflexivity. Qed.

Lemma land_FFFF_range (a : Z) : 0 <= Z.land a 0xFFFF < 65536.
Proof. rewrite land_FFFF. apply Z.mod_pos_bound. lia. Qed.

Lemma lookup_mem_ok (s : NES) (i : Z) :
  mem_ok s -> 0 <= i < 65536 -> is_Some (memory s !! Z.to_nat i).
Proof.
  unfold mem_ok. intros Hm Hi. apply lookup_lt_is_Some. lia.
Qed.

Lemma mem_get_ok (s : NES) (i : Z) (v : Z) :
  0 <= i -> memory s !! Z.to_nat i = Some v -> mem_get i s = (Ret v, s).
Proof.
  intros Hi Hv. unfold mem_get, bind, gets, lift_option.
  rewrite getitem_in_range, Hv by lia. reflexivity.
Qed.

Lemma mem_set_ok (s : NES) (i : Z) (v : Z) :
  0 <= i < len (memory s) ->
  mem_set i v s = (Ret tt, set_memory (<[Z.to_nat i := v]> (memory s)) s).
Proof.
  intros Hi. unfold mem_set, bind, gets, lift_option, modify.
  rewrite setitem_in_range by lia. reflexivity.
Qed.

Lemma read_byte_ok (s : NES) (a : Z) (v : Z) :
  memory s !! Z.to_nat (a mod 65536) = Some v -> read_byte a s = (Ret v, s).
Proof.
  intros Hv. unfold read_byte. rewrite land_FFFF.
  apply mem_get_ok; [|exact Hv]. apply Z.mod_pos_bound. lia.
Qed.

Lemma cells_ok_iff (s : NES) :
  cells_ok s <->
  forall (i : nat) (v : Z), memory s !! i = Some v -> 0 <= v < 256.
Proof.
  unfold cells_ok. rewrite forallb_forall. split.
  - intros Hc i v Hv.
    apply list_elem_of_lookup_2, list_elem_of_In in Hv.
    apply Hc in Hv. lia.
  - intros Hc v Hv.
    apply list_elem_of_In, list_elem_of_lookup_1 in Hv as [i Hi].
    apply Hc in Hi. lia.
Qed.

Lemma cells_ok_lookup (s : NES) (i : nat) (v : Z) :
  cells_ok s -> memory s !! i = Some v -> 0 <= v < 256.
Proof. intros Hc. apply cells_ok_iff. exact Hc. Qed.

Lemma byte_val_range (b : byte) : 0 <= byte_val b < 256.
Proof.
  unfold byte_val. pose proof (Byte.to_N_bounded b). lia.
Qed.

(** Two bytes composed as [(high << 8) | low] fit in 16 bits. *)
Lemma compose_range (high low : Z) :
  0 <= high < 256 -> 0 <= low < 256 ->
  0 <= Z.lor (Z.shiftl high 8) low <= 65535.
Proof.
  intros Hh Hl.
  assert (Hs : 0 <= Z.shiftl high 8 < 2 ^ 16).
  { rewrite Z.shiftl_mul_pow2 by lia. change (2 ^ 8) with 256.
    change (2 ^ 16) with 65536. lia. }
  assert (H0 : 0 <= Z.lor (Z.shiftl high 8) low) by (apply Z.lor_nonneg; lia).
  split; [exact H0|].
  destruct (Z.eq_dec (Z.lor (Z.shiftl high 8) low) 0) as [->|Hne]; [lia|].
  assert (Hlt : Z.lor (Z.shiftl high 8) low < 2 ^ 16); [|change (2 ^ 16) with 65536 in Hlt; lia].
  apply Z.log2_lt_pow2; [lia|].
  rewrite Z.log2_lor by lia.
  apply Z.max_lub_lt.
  - destruct (Z.eq_dec (Z.shiftl high 8) 0) as [->|?]; [reflexivity|].
    apply Z.log2_lt_pow2; lia.
  - destruct (Z.eq_dec low 0) as [->|?]; [reflexivity|].
    apply Z.log2_lt_pow2; [lia|]. change (2 ^ 16) with 65536. lia.
Qed.

(** ** Running the monad *)

Ltac nes_simpl :=
  cbn [bind ret gets modify lift_option fst snd
       memory pc sp A X Y P running thread
       set_memory set_pc set_sp set_A set_X set_Y set_P set_running set_thread].

Ltac nes_simpl_in H :=
  cbn [bind ret gets modify lift_option fst snd
       memory pc sp A X Y P running thread
       set_memory set_pc set_sp set_A set_X set_Y set_P set_running set_thread]
    in H.

Lemma bind_Ret {T U : Type} (m : M T) (k : T -> M U) (s s' : NES) (v : T) :
  m s = (Ret v, s') -> bind m k s = k v s'.
Proof. intros H. unfold bind. rewrite H. reflexivity. Qed.

Lemma bind_Raise {T U : Type} (m : M T) (k : T -> M U) (s s' : NES) (e : exn) :
  m s = (Raise e, s') -> bind m k s = (Raise e, s').
Proof. intros H. unfold bind. rewrite H. reflexivity. Qed.

(** ** Memory access *)

(** C3: for every integer address [a] (also above 65535) and value [v],
    [read_byte] and [write_byte] never raise; [write_byte a v] stores
    [v mod 256] in cell [a mod 65536], and [read_byte a] afterwards
    returns [v & 0xFF]. *)
Theorem write_then_read (s : NES) (a v : Z) :
  mem_ok s ->
  let cell := Z.to_nat (a mod 65536) in
  let s' := set_memory (<[cell := v mod 256]> (memory s)) s in
  (exists b, memory s !! cell = Some b /\ read_byte a s = (Ret b, s)) /\
  write_byte a v s = (Ret tt, s') /\
  read_byte a s' = (Ret (Z.land v 0xFF), s').
Proof.
  intros Hm cell s'.
  assert (Ha : 0 <= a mod 65536 < 65536) by (apply Z.mod_pos_bound; lia).
  split; [|split].
  - destruct (lookup_mem_ok s (a mod 65536) Hm Ha) as [b Hb].
    exists b. split; [exact Hb|]. by apply read_byte_ok.
  - unfold write_byte. rewrite land_FFFF, land_FF.
    apply mem_set_ok. unfold mem_ok in Hm. lia.
  - apply read_byte_ok. subst s' cell. nes_simpl. rewrite land_FF.
    apply list_lookup_insert_eq. unfold mem_ok in Hm. lia.
Qed.

Lemma write_then_read_witness :
  mem_ok init /\
  read_byte 0x12345 (snd (write_byte 0x12345 0x1FF init)) =
    (Ret 0xFF, snd (write_byte 0x12345 0x1FF init)).
Proof.
  assert (Hm : mem_ok init) by (vm_compute; reflexivity).
  split; [exact Hm|].
  destruct (write_then_read init 0x12345 0x1FF Hm) as (_ & Hw & Hr).
  rewrite Hw. exact Hr.
Defined.

(** ** Reset *)

Lemma reset_run (s : NES) (low high : Z) :
  memory s !! Z.to_nat 0xFFFC = Some low ->
  memory s !! Z.to_nat 0xFFFD = Some high ->
  reset s =
    (Ret tt,
     mkNES (memory s) (Z.lor (Z.shiftl high 8) low) 0xFD 0 0 0 0x04
           (running s) (thread s)).
Proof.
  intros Hl Hh. unfold reset. nes_simpl.
  erewrite bind_Ret by (apply read_byte_ok; exact Hl).
  erewrite bind_Ret by (apply read_byte_ok; exact Hh).
  reflexivity.
Qed.

(** C2: [reset] sets A = X = Y = 0, SP = 0xFD, P = 0x04 and
    PC = (mem[0xFFFD] << 8) | mem[0xFFFC]; with 0x00 at 0xFFFC and 0x90 at
    0xFFFD the new PC is 0x9000. *)
Theorem reset_spec (s : NES) :
  mem_ok s ->
  exists low high,
    memory s !! Z.to_nat 0xFFFC = Some low /\
    memory s !! Z.to_nat 0xFFFD = Some high /\
    reset s =
      (Ret tt,
       {| memory := memory s;
          pc := Z.lor (Z.shiftl high 8) low;
          sp := 0xFD;
          A := 0; X := 0; Y := 0; P := 0x04;
          running := running s;
          thread := thread s |}) /\
    (low = 0x00 -> high = 0x90 -> pc (snd (reset s)) = 0x9000).
Proof.
  intros Hm.
  destruct (lookup_mem_ok s 0xFFFC Hm) as [low Hl]; [lia|].
  destruct (lookup_mem_ok s 0xFFFD Hm) as [high Hh]; [lia|].
  exists low, high.
  assert (Hr := reset_run s low high Hl Hh).
  repeat split; try assumption.
  intros -> ->. rewrite Hr. reflexivity.
Qed.

Lemma reset_spec_witness :
  mem_ok vector_9000 /\ pc (snd (reset vector_9000)) = 0x9000.
Proof.
  assert (Hm : mem_ok vector_9000) by (vm_compute; reflexivity).
  split; [exact Hm|].
  destruct (reset_spec vector_9000 Hm) as (low & high & Hl & Hh & _ & Hpc).
  apply Hpc.
  - vm_compute in Hl. congruence.
  - vm_compute in Hh. congruence.
Defined.

(** ** Fetch *)

Lemma fetch_byte_run (s : NES) (b : Z) :
  memory s !! Z.to_nat (pc s mod 65536) = Some b ->
  fetch_byte s = (Ret b, set_pc ((pc s mod 65536 + 1) mod 65536) s).
Proof.
  intros Hb. unfold fetch_byte. nes_simpl. rewrite land_FFFF.
  assert (H0 : 0 <= pc s mod 65536) by (apply Z.mod_pos_bound; lia).
  erewrite bind_Ret by (apply mem_get_ok; [exact H0 | exact Hb]).
  nes_simpl. rewrite land_FFFF. reflexivity.
Qed.

(** C4: [fetch_byte] returns the byte at the current PC and leaves the
    state as it was except for PC, which is PC + 1 wrapped to 16 bits
    (0xFFFF becomes 0). *)
Theorem fetch_byte_spec (s : NES) :
  mem_ok s -> pc_ok s ->
  exists b,
    memory s !! Z.to_nat (pc s) = Some b /\
    fetch_byte s = (Ret b, set_pc (if pc s =? 0xFFFF then 0 else pc s + 1) s) /\
    let s' := snd (fetch_byte s) in
    pc s' = (pc s + 1) mod 65536 /\
    memory s' = memory s /\
    (A s', X s', Y s', P s', sp s') = (A s, X s, Y s, P s, sp s).
Proof.
  unfold pc_ok. intros Hm Hp.
  destruct (lookup_mem_ok s (pc s) Hm) as [b Hb]; [lia|].
  assert (Hmod : pc s mod 65536 = pc s) by (apply Z.mod_small; lia).
  assert (Hf : fetch_byte s =
    (Ret b, set_pc (if pc s =? 0xFFFF then 0 else pc s + 1) s)).
  { rewrite (fetch_byte_run s b) by (rewrite Hmod; exact Hb).
    rewrite Hmod. f_equal. f_equal.
    destruct (Z.eqb_spec (pc s) 0xFFFF) as [->|Hne]; [reflexivity|].
    apply Z.mod_small. lia. }
  exists b. split; [exact Hb|]. split; [exact Hf|].
  rewrite Hf. nes_simpl. repeat split.
  destruct (Z.eqb_spec (pc s) 0xFFFF) as [->|Hne]; [reflexivity|].
  symmetry. apply Z.mod_small. lia.
Qed.

Lemma fetch_byte_spec_witness :
  mem_ok pc_at_top /\ pc_ok pc_at_top /\
  fetch_byte pc_at_top = (Ret 0, set_pc 0 pc_at_top).
Proof.
  assert (Hm : mem_ok pc_at_top) by (vm_compute; reflexivity).
  assert (Hp : pc_ok pc_at_top) by (vm_compute; split; discriminate).
  split; [exact Hm|]. split; [exact Hp|].
  destruct (fetch_byte_spec pc_at_top Hm Hp) as (b & Hb & Hf & _).
  vm_compute in Hb. injection Hb as <-. rewrite Hf. reflexivity.
Defined.

(** ** Copying a bank *)

Lemma set_memory_id (s : NES) : set_memory (memory s) s = s.
Proof. destruct s; reflexivity. Qed.

Lemma slice_lookup {T : Type} (l : list T) (lo hi : Z) (i : nat) :
  slice l lo hi !! i =
    if decide (i < Z.to_nat (hi - lo))%nat then l !! (Z.to_nat lo + i)%nat else None.
Proof. unfold slice. rewrite lookup_take, lookup_drop. reflexivity. Qed.

Lemma slice_len {T : Type} (l : list T) (lo hi : Z) :
  0 <= lo <= hi -> hi <= len l -> len (slice l lo hi) = hi - lo.
Proof.
  unfold slice. intros H1 H2. rewrite length_take, length_drop. lia.
Qed.

Lemma slice_empty {T : Type} (l : list T) (lo hi : Z) :
  len l <= lo -> slice l lo hi = [].
Proof.
  unfold slice. intros H. rewrite drop_ge by lia. apply take_nil.
Qed.

(** The loop of [copy_bank], started at index [k] with [n] iterations to
    go: it never raises when the target range lies inside the memory, and
    it overwrites exactly the cells [base + k .. base + k + n - 1]. *)
Lemma copy_from_run (base : Z) (bank : bytes) (n : nat) :
  forall (k : Z) (s : NES),
  0 <= base -> 0 <= k ->
  k + Z.of_nat n <= len bank ->
  base + k + Z.of_nat n <= len (memory s) ->
  exists m' : list Z,
    for_range_from k n (fun i =>
      b <- lift_option (getitem bank i) ;;
      mem_set (base + i) (byte_val b)) s = (Ret tt, set_memory m' s) /\
    length m' = length (memory s) /\
    forall j : nat,
      m' !! j =
        if decide (base + k <= Z.of_nat j < base + k + Z.of_nat n)
        then byte_val <$> bank !! Z.to_nat (Z.of_nat j - base)
        else memory s !! j.
Proof.
  induction n as [|n IH]; intros k s Hbase Hk Hbank Hmem.
  - exists (memory s). cbn [for_range_from]. unfold ret.
    rewrite set_memory_id. repeat split.
    intros j. case_decide; [lia | reflexivity].
  - destruct (lookup_lt_is_Some_2 bank (Z.to_nat k)) as [b Hb]; [lia|].
    set (s1 := set_memory (<[Z.to_nat (base + k) := byte_val b]> (memory s)) s).
    destruct (IH (k + 1) s1) as (m' & Hrun & Hlen & Hlk);
      [lia | lia | lia | subst s1; nes_simpl; rewrite length_insert; lia |].
    exists m'. cbn [for_range_from].
    erewrite bind_Ret; [rewrite Hrun; split; [reflexivity|]|].
    + split.
      { rewrite Hlen. subst s1. nes_simpl. apply length_insert. }
      intros j. rewrite Hlk. subst s1. nes_simpl.
      repeat case_decide; try lia.
      * reflexivity.
      * assert (j = Z.to_nat (base + k)) as -> by lia.
        rewrite list_lookup_insert_eq by lia.
        replace (Z.to_nat (Z.of_nat (Z.to_nat (base + k)) - base))
          with (Z.to_nat k) by lia.
        rewrite Hb. reflexivity.
      * apply list_lookup_insert_ne. lia.
    + erewrite bind_Ret.
      * apply mem_set_ok. lia.
      * unfold lift_option. rewrite getitem_in_range, Hb by lia. reflexivity.
Qed.

Lemma copy_bank_run (base : Z) (bank : bytes) (s : NES) :
  0 <= base ->
  base + len bank <= len (memory s) ->
  exists m' : list Z,
    copy_bank base bank s = (Ret tt, set_memory m' s) /\
    length m' = length (memory s) /\
    forall j : nat,
      m' !! j =
        if decide (base <= Z.of_nat j < base + len bank)
        then byte_val <$> bank !! Z.to_nat (Z.of_nat j - base)
        else memory s !! j.
Proof.
  intros Hbase Hmem. unfold copy_bank, for_range.
  destruct (copy_from_run base bank (Z.to_nat (len bank)) 0 s)
    as (m' & Hrun & Hlen & Hlk); try lia.
  exists m'. split; [exact Hrun|]. split; [exact Hlen|].
  intros j. rewrite Hlk.
  repeat case_decide; try lia; reflexivity.
Qed.

(** A memory that agrees with [bank] on the window at [base] shows
    exactly [bank] there. *)
Lemma slice_is_bank (m : list Z) (base : Z) (bank : bytes) :
  0 <= base ->
  base + len bank <= len m ->
  (forall j : nat, base <= Z.of_nat j < base + len bank ->
     m !! j = byte_val <$> bank !! Z.to_nat (Z.of_nat j - base)) ->
  slice m base (base + len bank) = byte_val <$> bank.
Proof.
  intros Hbase Hm Hwin. apply list_eq. intros i.
  rewrite slice_lookup, list_lookup_fmap. 
  case_decide as Hi.
  - rewrite Hwin by lia. f_equal. f_equal. lia.
  - symmetry. rewrite fmap_None. apply lookup_ge_None_2. lia.
Qed.

(** ** Loading a cartridge *)

(** Past the three checks [load_rom] is the two copies, the reset and
    [return True]. *)
Lemma load_rom_accepts (data : bytes) (b : byte) (s : NES) :
  16 <= len data ->
  slice data 0 4 = magic ->
  data !! 4%nat = Some b ->
  16 + byte_val b * 16384 <= len data ->
  load_rom (Some data) s =
    (copy_bank 0x8000 (slice data 16 (16 + 16384)) ;;
     (if byte_val b =? 1
      then copy_bank 0xC000 (slice data 16 (16 + 16384))
      else copy_bank 0xC000 (slice data (16 + 16384) (16 + 32768))) ;;
     reset ;;
     ret true) s.
Proof.
  intros Hlen Hmagic Hb Hsize. unfold load_rom.
  destruct (Z.ltb_spec (len data) 16) as [?|_]; [lia|].
  rewrite bool_decide_eq_true_2 by exact Hmagic. cbn [orb negb].
  erewrite bind_Ret
    by (unfold lift_option; rewrite getitem_in_range by lia;
        change (Z.to_nat 4) with 4%nat; rewrite Hb; reflexivity).
  cbv zeta.
  destruct (Z.ltb_spec (len data) (16 + byte_val b * 16384)) as [?|_]; [lia|].
  reflexivity.
Qed.

(** What the loader leaves behind once both copies went through. *)
Lemma load_rom_copies (data : bytes) (b : byte) (s : NES) (bank2 : bytes) :
  mem_ok s ->
  16 <= len data ->
  slice data 0 4 = magic ->
  data !! 4%nat = Some b ->
  16 + byte_val b * 16384 <= len data ->
  bank2 = (if byte_val b =? 1
           then slice data 16 (16 + 16384)
           else slice data (16 + 16384) (16 + 32768)) ->
  let bank1 := slice data 16 (16 + 16384) in
  exists m' : list Z,
    length m' = length (memory s) /\
    (forall j : nat,
       m' !! j =
         if decide (0xC000 <= Z.of_nat j < 0xC000 + len bank2)
         then byte_val <$> bank2 !! Z.to_nat (Z.of_nat j - 0xC000)
         else if decide (0x8000 <= Z.of_nat j < 0x8000 + len bank1)
         then byte_val <$> bank1 !! Z.to_nat (Z.of_nat j - 0x8000)
         else memory s !! j) /\
    exists low high,
      m' !! Z.to_nat 0xFFFC = Some low /\
      m' !! Z.to_nat 0xFFFD = Some high /\
      load_rom (Some data) s =
        (Ret true,
         mkNES m' (Z.lor (Z.shiftl high 8) low) 0xFD 0 0 0 0x04
               (running s) (thread s)).
Proof.
  intros Hm Hlen Hmagic Hb Hsize Hbank2 bank1.
  assert (Hl1 : len bank1 <= 16384).
  { subst bank1. unfold slice. rewrite length_take. lia. }
  assert (Hl2 : len bank2 <= 16384).
  { subst bank2. destruct (byte_val b =? 1); unfold slice;
      rewrite length_take; lia. }
  unfold mem_ok in Hm.
  destruct (copy_bank_run 0x8000 bank1 s) as (m1 & Hrun1 & Hlen1 & Hlk1); [lia | lia |].
  set (s1 := set_memory m1 s) in *.
  destruct (copy_bank_run 0xC000 bank2 s1) as (m2 & Hrun2 & Hlen2 & Hlk2);
    [lia | subst s1; nes_simpl; lia |].
  exists m2. split; [subst s1; nes_simpl_in Hlen2; congruence|].
  split.
  { intros j. rewrite Hlk2. case_decide; [reflexivity|].
    subst s1. nes_simpl. apply Hlk1. }
  assert (Hm2 : mem_ok (set_memory m2 s1)).
  { unfold mem_ok in *. subst s1. nes_simpl. nes_simpl_in Hlen2. lia. }
  destruct (lookup_mem_ok _ 0xFFFC Hm2) as [low Hlow]; [lia|].
  destruct (lookup_mem_ok _ 0xFFFD Hm2) as [high Hhigh]; [lia|].
  exists low, high. split; [exact Hlow|]. split; [exact Hhigh|].
  rewrite (load_rom_accepts data b s Hlen Hmagic Hb Hsize).
  fold bank1. erewrite bind_Ret by exact Hrun1.
  erewrite bind_Ret.
  2:{ rewrite Hbank2 in Hrun2. fold s1.
      destruct (byte_val b =? 1); exact Hrun2. }
  erewrite bind_Ret by (apply reset_run; [exact Hlow | exact Hhigh]).
  reflexivity.
Qed.

(** C1: a well-formed single-bank image (magic, bank count 1, at least
    16 + 16384 bytes) loads successfully and its bank
    [B = data[16:16+16384]] is afterwards found both at 0x8000..0xBFFF
    and at 0xC000..0xFFFF. *)
Theorem load_single_bank (data : bytes) (s : NES) :
  mem_ok s ->
  slice data 0 4 = magic ->
  data !! 4%nat = Some x01%byte ->
  16 + 16384 <= len data ->
  let B := slice data 16 (16 + 16384) in
  exists s' : NES,
    load_rom (Some data) s = (Ret true, s') /\
    len B = 16384 /\
    slice (memory s') 0x8000 0xC000 = byte_val <$> B /\
    slice (memory s') 0xC000 0x10000 = byte_val <$> B.
Proof.
  intros Hm Hmagic Hb Hlen B.
  assert (HB : len B = 16384) by (subst B; rewrite slice_len; lia).
  destruct (load_rom_copies data x01%byte s B Hm) as
    (m' & Hlen' & Hlk & low & high & _ & _ & Hload);
    [lia | exact Hmagic | exact Hb | change (byte_val x01) with 1; lia
     | change (byte_val x01 =? 1) with true; reflexivity |].
  fold B in Hlk.
  exists (mkNES m' (Z.lor (Z.shiftl high 8) low) 0xFD 0 0 0 0x04
                (running s) (thread s)).
  split; [exact Hload|]. split; [exact HB|]. nes_simpl.
  unfold mem_ok in Hm.
  split.
  - replace 0xC000 with (0x8000 + len B) by lia.
    apply slice_is_bank; [lia | lia |].
    intros j Hj. rewrite Hlk.
    case_decide; [lia|]. case_decide; [reflexivity | lia].
  - replace 0x10000 with (0xC000 + len B) by lia.
    apply slice_is_bank; [lia | lia |].
    intros j Hj. rewrite Hlk.
    case_decide; [reflexivity | lia].
Qed.

Lemma load_single_bank_witness :
  exists s' : NES,
    load_rom (Some rom_16k) init = (Ret true, s') /\
    len (slice rom_16k 16 (16 + 16384)) = 16384 /\
    slice (memory s') 0x8000 0xC000 = byte_val <$> slice rom_16k 16 (16 + 16384) /\
    slice (memory s') 0xC000 0x10000 = byte_val <$> slice rom_16k 16 (16 + 16384).
Proof.
  apply (load_single_bank rom_16k init).
  - vm_compute; reflexivity.
  - vm_compute; reflexivity.
  - vm_compute; reflexivity.
  - vm_compute; discriminate.
Defined.

(** C5: a well-formed two-bank image (magic, bank count 2, at least
    16 + 32768 bytes) loads successfully; its first bank is afterwards at
    0x8000..0xBFFF and its second at 0xC000..0xFFFF. *)
Theorem load_two_banks (data : bytes) (s : NES) :
  mem_ok s ->
  slice data 0 4 = magic ->
  data !! 4%nat = Some x02%byte ->
  16 + 32768 <= len data ->
  let B1 := slice data 16 (16 + 16384) in
  let B2 := slice data (16 + 16384) (16 + 32768) in
  exists s' : NES,
    load_rom (Some data) s = (Ret true, s') /\
    len B1 = 16384 /\ len B2 = 16384 /\
    slice (memory s') 0x8000 0xC000 = byte_val <$> B1 /\
    slice (memory s') 0xC000 0x10000 = byte_val <$> B2.
Proof.
  intros Hm Hmagic Hb Hlen B1 B2.
  assert (HB1 : len B1 = 16384) by (subst B1; rewrite slice_len; lia).
  assert (HB2 : len B2 = 16384) by (subst B2; rewrite slice_len; lia).
  destruct (load_rom_copies data x02%byte s B2 Hm) as
    (m' & Hlen' & Hlk & low & high & _ & _ & Hload);
    [lia | exact Hmagic | exact Hb | change (byte_val x02) with 2; lia
     | change (byte_val x02 =? 1) with false; reflexivity |].
  fold B1 in Hlk.
  exists (mkNES m' (Z.lor (Z.shiftl high 8) low) 0xFD 0 0 0 0x04
                (running s) (thread s)).
  split; [exact Hload|]. split; [exact HB1|]. split; [exact HB2|]. nes_simpl.
  unfold mem_ok in Hm.
  split.
  - replace 0xC000 with (0x8000 + len B1) by lia.
    apply slice_is_bank; [lia | lia |].
    intros j Hj. rewrite Hlk.
    case_decide; [lia|]. case_decide; [reflexivity | lia].
  - replace 0x10000 with (0xC000 + len B2) by lia.
    apply slice_is_bank; [lia | lia |].
    intros j Hj. rewrite Hlk.
    case_decide; [reflexivity | lia].
Qed.

Lemma load_two_banks_witness :
  exists s' : NES,
    load_rom (Some rom_32k) init = (Ret true, s') /\
    len (slice rom_32k 16 (16 + 16384)) = 16384 /\
    len (slice rom_32k (16 + 16384) (16 + 32768)) = 16384 /\
    slice (memory s') 0x8000 0xC000 =
      byte_val <$> slice rom_32k 16 (16 + 16384) /\
    slice (memory s') 0xC000 0x10000 =
      byte_val <$> slice rom_32k (16 + 16384) (16 + 32768).
Proof.
  apply (load_two_banks rom_32k init).
  - vm_compute; reflexivity.
  - vm_compute; reflexivity.
  - vm_compute; reflexivity.
  - vm_compute; discriminate.
Defined.

(** C6: a file shorter than 16 bytes, or without the magic, or shorter
    than 16 + bank_count * 16384 bytes (bank_count read at offset 4), is
    refused: [load_rom] returns [False] and the object (memory, registers,
    flags) is exactly what it was. *)
Theorem load_rom_rejects (data : bytes) (s : NES) :
  len data < 16 \/
  slice data 0 4 <> magic \/
  (exists b : byte,
     data !! 4%nat = Some b /\ len data < 16 + byte_val b * 16384) ->
  load_rom (Some data) s = (Ret false, s).
Proof.
  intros Hbad. unfold load_rom.
  destruct (Z.ltb_spec (len data) 16) as [Hshort|Hlong]; [reflexivity|].
  destruct (decide (slice data 0 4 = magic)) as [Hmagic|Hmagic].
  - rewrite bool_decide_eq_true_2 by exact Hmagic. cbn [orb negb].
    destruct Hbad as [?|[?|(b & Hb & Hsize)]]; [lia | contradiction |].
    erewrite bind_Ret
      by (unfold lift_option; rewrite getitem_in_range by lia;
          change (Z.to_nat 4) with 4%nat; rewrite Hb; reflexivity).
    cbv zeta.
    destruct (Z.ltb_spec (len data) (16 + byte_val b * 16384)) as [_|?];
      [reflexivity | lia].
  - rewrite bool_decide_eq_false_2 by exact Hmagic. reflexivity.
Qed.

Lemma load_rom_rejects_witness :
  load_rom (Some rom_truncated) init = (Ret false, init).
Proof.
  apply (load_rom_rejects rom_truncated init).
  right. right. exists x01%byte. split.
  - reflexivity.
  - vm_compute. reflexivity.
Defined.

(** The file that could not be opened is refused the same way. *)
Lemma load_rom_unreadable (s : NES) : load_rom None s = (Ret false, s).
Proof. reflexivity. Qed.

(** C10: a 16-byte file with the magic and bank count 0 is accepted:
    [load_rom] returns [True], the memory is untouched, the CPU is reset
    (the result is the state [reset] gives), and on the all-zero memory
    of a fresh object the new PC is 0. *)
Theorem load_no_prg (data : bytes) (s : NES) :
  mem_ok s ->
  len data = 16 ->
  slice data 0 4 = magic ->
  data !! 4%nat = Some x00%byte ->
  exists low high : Z,
    memory s !! Z.to_nat 0xFFFC = Some low /\
    memory s !! Z.to_nat 0xFFFD = Some high /\
    load_rom (Some data) s =
      (Ret true,
       {| memory := memory s;
          pc := Z.lor (Z.shiftl high 8) low;
          sp := 0xFD;
          A := 0; X := 0; Y := 0; P := 0x04;
          running := running s;
          thread := thread s |}) /\
    load_rom (Some data) s = (Ret true, snd (reset s)) /\
    (memory s = memory init -> pc (snd (load_rom (Some data) s)) = 0).
Proof.
  intros Hm Hlen Hmagic Hb.
  destruct (load_rom_copies data x00%byte s [] Hm) as
    (m' & Hlen' & Hlk & low & high & Hlow & Hhigh & Hload);
    [lia | exact Hmagic | exact Hb | change (byte_val x00) with 0; lia | |].
  { change (byte_val x00 =? 1) with false. cbv iota.
    symmetry. apply slice_empty. lia. }
  assert (Hsame : m' = memory s).
  { apply list_eq. intros j. rewrite Hlk.
    rewrite (slice_empty data 16 (16 + 16384)) by lia.
    cbn [length]. change (Z.of_nat 0) with 0.
    case_decide; [lia|]. case_decide; [lia | reflexivity]. }
  subst m'. exists low, high.
  split; [exact Hlow|]. split; [exact Hhigh|]. split; [exact Hload|].
  split.
  - rewrite Hload, (reset_run s low high Hlow Hhigh). reflexivity.
  - intros Hzero. rewrite Hload. nes_simpl.
    rewrite Hzero in Hlow, Hhigh.
    apply lookup_replicate_1 in Hlow as [-> _].
    apply lookup_replicate_1 in Hhigh as [-> _].
    reflexivity.
Qed.

Lemma load_no_prg_witness :
  load_rom (Some rom_no_prg) init = (Ret true, snd (reset init)) /\
  memory (snd (load_rom (Some rom_no_prg) init)) = memory init /\
  pc (snd (load_rom (Some rom_no_prg) init)) = 0.
Proof.
  destruct (load_no_prg rom_no_prg init) as (low & high & _ & _ & Hl & Hr & Hpc).
  - vm_compute; reflexivity.
  - vm_compute; reflexivity.
  - vm_compute; reflexivity.
  - reflexivity.
  - split; [exact Hr|]. split; [rewrite Hl; reflexivity|].
    apply Hpc. reflexivity.
Defined.

(** Whatever the file, [load_rom] returns a boolean, never raises, and
    hands back a 64KB memory; byte-valued cells stay byte-valued and a
    16-bit PC stays 16-bit. *)
Lemma load_rom_total (file : option bytes) (s : NES) :
  mem_ok s ->
  exists (r : bool) (s' : NES),
    load_rom file s = (Ret r, s') /\ mem_ok s' /\
    (cells_ok s -> cells_ok s' /\ (pc_ok s -> pc_ok s')).
Proof.
  intros Hm.
  assert (Hsame : forall r : bool,
    load_rom file s = (Ret r, s) ->
    exists (r : bool) (s' : NES),
      load_rom file s = (Ret r, s') /\ mem_ok s' /\
      (cells_ok s -> cells_ok s' /\ (pc_ok s -> pc_ok s'))).
  { intros r Hr. exists r, s. split; [exact Hr|]. split; [exact Hm|].
    intros Hc. split; [exact Hc | trivial]. }
  destruct file as [data|]; [|apply (Hsame false); reflexivity].
  destruct (Z.ltb_spec (len data) 16) as [Hshort|Hlong].
  { apply (Hsame false). unfold load_rom.
    destruct (Z.ltb_spec (len data) 16); [reflexivity | lia]. }
  destruct (decide (slice data 0 4 = magic)) as [Hmagic|Hmagic].
  2:{ apply (Hsame false). unfold load_rom.
      rewrite bool_decide_eq_false_2 by exact Hmagic.
      destruct (len data <? 16); reflexivity. }
  destruct (lookup_lt_is_Some_2 data 4%nat) as [b Hb]; [lia|].
  destruct (Z.ltb_spec (len data) (16 + byte_val b * 16384)) as [Htrunc|Hsize].
  { apply (Hsame false). unfold load_rom.
    destruct (Z.ltb_spec (len data) 16); [lia|].
    rewrite bool_decide_eq_true_2 by exact Hmagic. cbn [orb negb].
    erewrite bind_Ret
      by (unfold lift_option; rewrite getitem_in_range by lia;
          change (Z.to_nat 4) with 4%nat; rewrite Hb; reflexivity).
    cbv zeta.
    destruct (Z.ltb_spec (len data) (16 + byte_val b * 16384));
      [reflexivity | lia]. }
  clear Hsame.
  destruct (load_rom_copies data b s _ Hm Hlong Hmagic Hb Hsize eq_refl)
    as (m' & Hlen' & Hlk & low & high & Hlow & Hhigh & Hload).
  eexists true, _. split; [exact Hload|].
  split; [unfold mem_ok in *; nes_simpl; lia|].
  intros Hc.
  assert (Hc' : forall (i : nat) (v : Z), m' !! i = Some v -> 0 <= v < 256).
  { intros i v. rewrite Hlk.
    repeat case_decide.
    - intros Hv. apply fmap_Some in Hv as (x & _ & ->). apply byte_val_range.
    - intros Hv. apply fmap_Some in Hv as (x & _ & ->). apply byte_val_range.
    - apply cells_ok_lookup. exact Hc. }
  split.
  - apply cells_ok_iff. exact Hc'.
  - intros _. unfold pc_ok. nes_simpl.
    apply compose_range; [exact (Hc' _ _ Hhigh) | exact (Hc' _ _ Hlow)].
Qed.

(** ** The fetch loop *)

Lemma loop_body_run (s : NES) (b : Z) :
  memory s !! Z.to_nat (pc s mod 65536) = Some b ->
  loop_body s =
    (Ret b,
     let s1 := set_pc ((pc s mod 65536 + 1) mod 65536) s in
     if b =? 0x00 then set_running false s1 else s1).
Proof.
  intros Hb. unfold loop_body.
  erewrite bind_Ret by (apply fetch_byte_run; exact Hb).
  cbv zeta. destruct (b =? 0); reflexivity.
Qed.

Lemma emulator_loop_stopped (fuel : nat) (s : NES) :
  running s = false -> emulator_loop (S fuel) s = Some ([], s).
Proof. intros H. cbn [emulator_loop]. rewrite H. reflexivity. Qed.

(** C7: when the byte at PC is the halt opcode 0x00 and the engine is
    running, the loop fetches that one byte and stops: [running] is
    cleared, PC has moved by one, nothing else was fetched. *)
Theorem halt_opcode_stops (s : NES) (fuel : nat) :
  pc_ok s ->
  running s = true ->
  memory s !! Z.to_nat (pc s) = Some 0x00 ->
  emulator_loop (S (S fuel)) s =
    Some ([0x00], set_running false (set_pc ((pc s + 1) mod 65536) s)) /\
  running (set_running false (set_pc ((pc s + 1) mod 65536) s)) = false.
Proof.
  unfold pc_ok. intros Hp Hrun Hop.
  assert (Hmod : pc s mod 65536 = pc s) by (apply Z.mod_small; lia).
  split; [|reflexivity].
  cbn [emulator_loop]. rewrite Hrun.
  rewrite (loop_body_run s 0) by (rewrite Hmod; exact Hop).
  cbv zeta. change (0 =? 0) with true. cbv iota.
  rewrite Hmod. cbn [running set_running]. reflexivity.
Qed.

Lemma halt_opcode_stops_witness :
  emulator_loop 2 started = Some ([0x00], set_running false (set_pc 1 started)).
Proof.
  destruct (halt_opcode_stops started 0) as [Hloop _].
  - vm_compute. split; discriminate.
  - reflexivity.
  - vm_compute. reflexivity.
  - exact Hloop.
Defined.

(** In any finished run of the loop a fetched 0x00 is the last opcode
    fetched, and the engine ends stopped. *)
Lemma emulator_loop_zero_last (fuel : nat) :
  forall (s s' : NES) (fetched : list Z),
  mem_ok s ->
  emulator_loop fuel s = Some (fetched, s') ->
  running s' = false /\
  forall i : nat, fetched !! i = Some 0x00 -> S i = length fetched.
Proof.
  induction fuel as [|fuel IH]; intros s s' fetched Hm Hloop; [discriminate|].
  cbn [emulator_loop] in Hloop.
  destruct (running s) eqn:Hrun.
  - destruct (lookup_mem_ok s (pc s mod 65536) Hm) as [b Hb];
      [apply Z.mod_pos_bound; lia|].
    rewrite (loop_body_run s b Hb) in Hloop. cbv zeta in Hloop.
    destruct (emulator_loop fuel _) as [[tr s2]|] eqn:Hrest; [|discriminate].
    injection Hloop as <- <-.
    destruct (Z.eqb_spec b 0) as [->|Hne].
    + destruct fuel as [|fuel']; [discriminate|].
      rewrite emulator_loop_stopped in Hrest by reflexivity.
      injection Hrest as <- <-. split; [reflexivity|].
      intros [|i] Hi; [reflexivity | discriminate].
    + apply IH in Hrest as [Hstop Hlast]; [|exact Hm].
      split; [exact Hstop|].
      intros [|i] Hi.
      * injection Hi as ->. contradiction.
      * cbn [length]. f_equal. apply Hlast. exact Hi.
  - injection Hloop as <- <-. split; [exact Hrun|].
    intros i Hi. discriminate.
Qed.

(** ** The program counter stays a 16-bit value *)

Lemma fetch_byte_pc_ok (s : NES) : pc_ok (snd (fetch_byte s)).
Proof.
  unfold fetch_byte, pc_ok. nes_simpl. unfold bind.
  destruct (mem_get _ _) as [[b|e] s1] eqn:Hget.
  - nes_simpl. pose proof (land_FFFF_range (pc s1 + 1)). lia.
  - nes_simpl. unfold mem_get, bind, gets, lift_option in Hget.
    destruct (getitem _ _); [discriminate Hget|].
    injection Hget as _ <-.
    nes_simpl. pose proof (land_FFFF_range (pc s)). lia.
Qed.

Lemma loop_body_keeps (s : NES) :
  mem_ok s ->
  exists (b : Z) (s1 : NES),
    loop_body s = (Ret b, s1) /\ memory s1 = memory s /\ pc_ok s1.
Proof.
  intros Hm.
  destruct (lookup_mem_ok s (pc s mod 65536) Hm) as [b Hb];
    [apply Z.mod_pos_bound; lia|].
  eexists b, _. split; [apply loop_body_run; exact Hb|].
  cbv zeta. unfold pc_ok.
  pose proof (Z.mod_pos_bound (pc s mod 65536 + 1) 65536).
  destruct (b =? 0); nes_simpl; split; (reflexivity || lia).
Qed.

Lemma emulator_loop_pc_ok (fuel : nat) :
  forall (s s' : NES) (fetched : list Z),
  mem_ok s -> pc_ok s ->
  emulator_loop fuel s = Some (fetched, s') -> pc_ok s'.
Proof.
  induction fuel as [|fuel IH]; intros s s' fetched Hm Hp Hloop; [discriminate|].
  cbn [emulator_loop] in Hloop.
  destruct (running s).
  - destruct (loop_body_keeps s Hm) as (b & s1 & Hbody & Hmem & Hp1).
    rewrite Hbody in Hloop.
    destruct (emulator_loop fuel s1) as [[tr s2]|] eqn:Hrest; [|discriminate].
    injection Hloop as _ <-.
    apply (IH s1 s2 tr); [|exact Hp1|exact Hrest].
    unfold mem_ok. rewrite Hmem. exact Hm.
  - injection Hloop as _ <-. exact Hp.
Qed.

(** C8: when every memory cell holds a byte, each operation that writes
    PC leaves it in 0..65535: [reset], [fetch_byte], one iteration of the
    loop, and so every run of the loop that starts from a 16-bit PC. *)
Theorem pc_stays_16_bit (s : NES) :
  mem_ok s -> cells_ok s ->
  pc_ok (snd (reset s)) /\
  pc_ok (snd (fetch_byte s)) /\
  pc_ok (snd (loop_body s)) /\
  (pc_ok s ->
   forall (fuel : nat) (fetched : list Z) (s' : NES),
     emulator_loop fuel s = Some (fetched, s') -> pc_ok s').
Proof.
  intros Hm Hc. split; [|split; [|split]].
  - destruct (lookup_mem_ok s 0xFFFC Hm) as [low Hl]; [lia|].
    destruct (lookup_mem_ok s 0xFFFD Hm) as [high Hh]; [lia|].
    rewrite (reset_run s low high Hl Hh). unfold pc_ok. nes_simpl.
    apply compose_range.
    + exact (cells_ok_lookup s _ high Hc Hh).
    + exact (cells_ok_lookup s _ low Hc Hl).
  - apply fetch_byte_pc_ok.
  - destruct (loop_body_keeps s Hm) as (b & s1 & Hbody & _ & Hp1).
    rewrite Hbody. exact Hp1.
  - intros Hp fuel fetched s' Hloop.
    exact (emulator_loop_pc_ok fuel s s' fetched Hm Hp Hloop).
Qed.

Lemma pc_stays_16_bit_witness :
  pc_ok (snd (reset vector_9000)) /\
  pc_ok (snd (fetch_byte vector_9000)) /\
  pc_ok (snd (loop_body vector_9000)).
Proof.
  destruct (pc_stays_16_bit vector_9000) as (Hr & Hf & Hb & _).
  - vm_compute; reflexivity.
  - vm_compute; reflexivity.
  - auto.
Defined.

(** ** start and stop *)

(** [stop()] on a stopped engine changes nothing and waits for nobody. *)
Lemma stop_when_stopped (w : world) :
  running (nes w) = false -> stop w = (w, None).
Proof. intros H. unfold stop. rewrite H. reflexivity. Qed.

(** [start()] on a running engine changes nothing: no second thread. *)
Lemma start_when_running (w : world) :
  running (nes w) = true -> start w = w.
Proof. intros H. unfold start. rewrite H. reflexivity. Qed.

(** [stop()] on a running engine clears the flag and joins the thread
    [start()] recorded. *)
Lemma stop_when_running (w : world) :
  running (nes w) = true ->
  stop w =
    (mkWorld (set_running false (nes w)) (threads w) (caller w),
     thread (nes w)).
Proof. intros H. unfold stop. rewrite H. reflexivity. Qed.

(** When [stop()] comes before the loop thread has run at all, the thread
    sees the cleared flag, ends, and only then does [stop()] return. *)
Lemma stop_joins_running_thread :
  let w := run [Caller; Caller; Loop 0%nat; Caller] (boot [CallStart; CallStop]) in
  run [Caller; Caller; Caller] (boot [CallStart; CallStop]) = None /\
  caller <$> w = Some [] /\
  threads <$> w = Some [Exited] /\
  live_threads <$> w = Some 0%nat.
Proof. vm_compute. repeat split. Qed.

(** C9, evaluated on a fresh object, whose byte at PC is the halt opcode.
    First schedule: [start()], the loop thread runs one iteration (it
    fetches 0x00, clears [running] and goes to sleep), [stop()].  Both
    calls have returned, the engine is stopped, and the loop thread is
    still alive: [stop()] found [running] false and did not join.
    Second schedule: [start()], one iteration as before, [start()] again,
    the first thread wakes up.  [running] is true again, both threads are
    alive at the loop test, and either of them fetches next. *)
Theorem stop_skips_join_after_halt :
  (let w := run [Caller; Loop 0%nat; Caller] (boot [CallStart; CallStop]) in
   caller <$> w = Some [] /\
   running <$> (nes <$> w) = Some false /\
   threads <$> w = Some [AtSleep] /\
   live_threads <$> w = Some 1%nat) /\
  (let sched := [Caller; Loop 0%nat; Caller; Loop 0%nat] in
   let w := run sched (boot [CallStart; CallStart]) in
   caller <$> w = Some [] /\
   running <$> (nes <$> w) = Some true /\
   threads <$> w = Some [AtWhile; AtWhile] /\
   live_threads <$> w = Some 2%nat /\
   threads <$> run (sched ++ [Loop 0%nat]) (boot [CallStart; CallStart])
     = Some [AtSleep; AtWhile] /\
   threads <$> run (sched ++ [Loop 1%nat]) (boot [CallStart; CallStart])
     = Some [AtWhile; AtSleep]).
Proof. vm_compute. repeat split. Qed.

(** ** The invariants hold from the start and are kept *)

Lemma init_ok : mem_ok init /\ cells_ok init /\ pc_ok init.
Proof. vm_compute. repeat split; discriminate. Qed.

Lemma write_byte_keeps_mem_ok (s : NES) (a v : Z) :
  mem_ok s -> mem_ok (snd (write_byte a v s)).
Proof.
  intros Hm. unfold write_byte. rewrite mem_set_ok.
  - unfold mem_ok in *. nes_simpl. rewrite length_insert. exact Hm.
  - unfold mem_ok in Hm. pose proof (land_FFFF_range a). lia.
Qed.

Lemma write_byte_keeps_cells_ok (s : NES) (a v : Z) :
  mem_ok s -> cells_ok s -> cells_ok (snd (write_byte a v s)).
Proof.
  intros Hm Hc. unfold write_byte. rewrite mem_set_ok.
  - apply cells_ok_iff. nes_simpl. intros i x Hx.
    apply list_lookup_insert_Some in Hx as [(_ & <- & _)|[_ Hx]].
    + rewrite land_FF. apply Z.mod_pos_bound. lia.
    + exact (cells_ok_lookup s i x Hc Hx).
  - unfold mem_ok in Hm. pose proof (land_FFFF_range a). lia.
Qed.

Lemma reset_keeps_memory (s : NES) :
  mem_ok s -> exists s' : NES, reset s = (Ret tt, s') /\ memory s' = memory s.
Proof.
  intros Hm.
  destruct (lookup_mem_ok s 0xFFFC Hm) as [low Hl]; [lia|].
  destruct (lookup_mem_ok s 0xFFFD Hm) as [high Hh]; [lia|].
  eexists. split; [apply (reset_run s low high Hl Hh) | reflexivity].
Qed.

(** The loop thread's atomic actions are those of [emulator_loop]: a run
    of the loop alone is the thread stepping until it has ended. *)
Lemma emulator_loop_as_steps (fuel : nat) :
  forall (s s' : NES) (fetched : list Z),
  emulator_loop fuel s = Some (fetched, s') ->
  thread_alone (2 * fuel) AtWhile s = Some s'.
Proof.
  induction fuel as [|fuel IH]; intros s s' fetched Hloop; [discriminate|].
  cbn [emulator_loop] in Hloop.
  replace (2 * S fuel)%nat with (S (S (2 * fuel))) by lia.
  cbn [thread_alone loop_step].
  destruct (running s).
  - destruct (loop_body s) as [[b|e] s1].
    + destruct (emulator_loop fuel s1) as [[tr s2]|] eqn:Hrest; [|discriminate].
      injection Hloop as _ <-. cbn [thread_alone loop_step].
      exact (IH s1 s2 tr Hrest).
    + injection Hloop as _ <-. reflexivity.
  - injection Hloop as _ <-. reflexivity.
Qed.

(** * Further properties of the core *)

(** ** The memory as a 64KB store *)

Lemma write_byte_run (s : NES) (a v : Z) :
  mem_ok s ->
  write_byte a v s =
    (Ret tt,
     set_memory (<[Z.to_nat (a mod 65536) := v mod 256]> (memory s)) s).
Proof.
  intros Hm. unfold write_byte. rewrite land_FFFF, land_FF.
  apply mem_set_ok. unfold mem_ok in Hm.
  pose proof (Z.mod_pos_bound a 65536). lia.
Qed.

Lemma read_byte_run (s : NES) (a : Z) :
  mem_ok s ->
  exists b : Z,
    memory s !! Z.to_nat (a mod 65536) = Some b /\ read_byte a s = (Ret b, s).
Proof.
  intros Hm.
  destruct (lookup_mem_ok s (a mod 65536) Hm) as [b Hb];
    [apply Z.mod_pos_bound; lia|].
  exists b. split; [exact Hb | apply read_byte_ok; exact Hb].
Qed.

(** X1: addresses are used modulo 65536 and values modulo 256, whatever
    their sign: [a] and [a + 65536 * k] name the same cell for reading
    and for writing, and [v] and [v + 256 * j] are the same value to
    write; so address -1 is cell 0xFFFF. *)
Theorem address_and_value_wrap (s : NES) (a v k j : Z) :
  read_byte (a + 65536 * k) s = read_byte a s /\
  write_byte (a + 65536 * k) (v + 256 * j) s = write_byte a v s /\
  read_byte (-1) s = read_byte 0xFFFF s.
Proof.
  assert (Ha : Z.land (a + 65536 * k) 0xFFFF = Z.land a 0xFFFF).
  { rewrite !land_FFFF, Z.mul_comm. apply Z.mod_add. lia. }
  assert (Hv : Z.land (v + 256 * j) 0xFF = Z.land v 0xFF).
  { rewrite !land_FF, Z.mul_comm. apply Z.mod_add. lia. }
  unfold read_byte, write_byte. rewrite Ha, Hv.
  repeat split.
Qed.

(** X2: [write_byte] changes one cell and nothing else: a read at an
    address that names another cell returns what it returned before, and
    the registers, [running] and [thread] keep their values. *)
Theorem write_byte_frame (s : NES) (a b v : Z) :
  mem_ok s ->
  a mod 65536 <> b mod 65536 ->
  let s' := snd (write_byte a v s) in
  fst (read_byte b s') = fst (read_byte b s) /\
  (pc s', sp s', A s', X s', Y s', P s') = (pc s, sp s, A s, X s, Y s, P s) /\
  (running s', thread s') = (running s, thread s).
Proof.
  intros Hm Hne s'. subst s'. rewrite (write_byte_run s a v Hm). nes_simpl.
  split; [|split; reflexivity].
  destruct (read_byte_run s b Hm) as (x & Hx & Hr). rewrite Hr.
  rewrite (read_byte_ok _ b x); [reflexivity|].
  nes_simpl. rewrite list_lookup_insert_ne; [exact Hx|].
  pose proof (Z.mod_pos_bound a 65536). pose proof (Z.mod_pos_bound b 65536).
  lia.
Qed.

Lemma write_byte_frame_witness :
  fst (read_byte 0x0200 (snd (write_byte 0x10201 0x55 init))) =
  fst (read_byte 0x0200 init).
Proof.
  destruct (write_byte_frame init 0x10201 0x0200 0x55) as (Hr & _).
  - vm_compute; reflexivity.
  - vm_compute; discriminate.
  - exact Hr.
Defined.

(** X3: writes compose like updates of a map: a second write to the same
    cell replaces the first, and writes to different cells can be
    swapped. *)
Theorem write_byte_twice (s : NES) (a b v w : Z) :
  mem_ok s ->
  (a mod 65536 = b mod 65536 ->
   snd (write_byte b w (snd (write_byte a v s))) = snd (write_byte b w s)) /\
  (a mod 65536 <> b mod 65536 ->
   snd (write_byte b w (snd (write_byte a v s))) =
   snd (write_byte a v (snd (write_byte b w s)))).
Proof.
  intros Hm.
  assert (Hm1 : forall c x, mem_ok (snd (write_byte c x s))).
  { intros c x. rewrite (write_byte_run s c x Hm). unfold mem_ok in *.
    nes_simpl. rewrite length_insert. exact Hm. }
  split; intros Hab.
  - rewrite (write_byte_run _ b w (Hm1 a v)).
    rewrite (write_byte_run s a v Hm), (write_byte_run s b w Hm). nes_simpl.
    unfold set_memory. nes_simpl. rewrite Hab, list_insert_insert_eq.
    reflexivity.
  - rewrite (write_byte_run _ b w (Hm1 a v)), (write_byte_run _ a v (Hm1 b w)).
    rewrite (write_byte_run s a v Hm), (write_byte_run s b w Hm). nes_simpl.
    unfold set_memory. nes_simpl. rewrite list_insert_insert_ne; [reflexivity|].
    pose proof (Z.mod_pos_bound a 65536). pose proof (Z.mod_pos_bound b 65536).
    lia.
Qed.

Lemma write_byte_twice_witness :
  snd (write_byte 0x10010 2 (snd (write_byte 0x0010 1 init))) =
    snd (write_byte 0x10010 2 init) /\
  snd (write_byte 0x0011 2 (snd (write_byte 0x0010 1 init))) =
    snd (write_byte 0x0010 1 (snd (write_byte 0x0011 2 init))).
Proof.
  assert (Hm : mem_ok init) by (vm_compute; reflexivity).
  destruct (write_byte_twice init 0x0010 0x10010 1 2 Hm) as [Hsame _].
  destruct (write_byte_twice init 0x0010 0x0011 1 2 Hm) as [_ Hswap].
  split.
  - apply Hsame. reflexivity.
  - apply Hswap. vm_compute. discriminate.
Defined.

(** X4: the invariants of the memory survive every write: after
    [write_byte], for any integer address and value, the memory still has
    65536 cells and, if every cell held a byte before, every cell holds
    a byte. *)
Theorem write_byte_keeps_invariants (s : NES) (a v : Z) :
  mem_ok s ->
  mem_ok (snd (write_byte a v s)) /\
  (cells_ok s -> cells_ok (snd (write_byte a v s))).
Proof.
  intros Hm. rewrite (write_byte_run s a v Hm). split.
  - unfold mem_ok in *. nes_simpl. rewrite length_insert. exact Hm.
  - intros Hc. apply cells_ok_iff. nes_simpl. intros i x Hx.
    apply list_lookup_insert_Some in Hx as [(_ & <- & _)|[_ Hx]].
    + apply Z.mod_pos_bound. lia.
    + exact (cells_ok_lookup s i x Hc Hx).
Qed.

Lemma write_byte_keeps_invariants_witness :
  mem_ok (snd (write_byte (-3) 0x1234 init)) /\
  cells_ok (snd (write_byte (-3) 0x1234 init)).
Proof.
  destruct (write_byte_keeps_invariants init (-3) 0x1234) as [Hm Hc].
  - vm_compute; reflexivity.
  - split; [exact Hm|]. apply Hc. vm_compute; reflexivity.
Defined.

(** ** What the loader accepts and what it leaves behind *)

Lemma well_formed_true (data : bytes) :
  well_formed data = true ->
  16 <= len data /\ slice data 0 4 = magic /\
  exists b : byte,
    data !! 4%nat = Some b /\ byte_val b = prg_banks data /\
    16 + byte_val b * 16384 <= len data.
Proof.
  unfold well_formed, prg_banks. intros H.
  apply andb_prop in H as [H Hsize]. apply andb_prop in H as [Hlen Hmagic].
  apply Z.leb_le in Hlen. apply bool_decide_eq_true_1 in Hmagic.
  destruct (data !! 4%nat) as [b|]; [|discriminate].
  apply Z.leb_le in Hsize. repeat split; [exact Hlen | exact Hmagic |].
  exists b. repeat split. exact Hsize.
Qed.

Lemma load_rom_refuses (data : bytes) (s : NES) :
  well_formed data = false -> load_rom (Some data) s = (Ret false, s).
Proof.
  unfold well_formed, load_rom. intros H.
  destruct (Z.ltb_spec (len data) 16) as [Hshort|Hlong]; [reflexivity|].
  destruct (Z.leb_spec 16 (len data)) as [_|?]; [|lia].
  destruct (bool_decide (slice data 0 4 = magic)); [|reflexivity].
  cbn [andb orb negb] in *.
  destruct (lookup_lt_is_Some_2 data 4%nat) as [b Hb]; [lia|].
  rewrite Hb in H. apply Z.leb_gt in H.
  erewrite bind_Ret
    by (unfold lift_option; rewrite getitem_in_range by lia;
        change (Z.to_nat 4) with 4%nat; rewrite Hb; reflexivity).
  cbv zeta.
  destruct (Z.ltb_spec (len data) (16 + byte_val b * 16384));
    [reflexivity | lia].
Qed.

(** The state a successful load ends in: the new memory [m'], cell by
    cell, and the registers [reset] derives from it. *)
Lemma load_rom_loads (data : bytes) (s : NES) :
  mem_ok s ->
  well_formed data = true ->
  let bank1 := slice data 16 (16 + 16384) in
  let bank2 := if prg_banks data =? 1 then bank1
               else slice data (16 + 16384) (16 + 32768) in
  exists (m' : list Z) (low high : Z),
    length m' = length (memory s) /\
    (forall j : nat,
       m' !! j =
         if decide (0xC000 <= Z.of_nat j < 0xC000 + len bank2)
         then byte_val <$> bank2 !! Z.to_nat (Z.of_nat j - 0xC000)
         else if decide (0x8000 <= Z.of_nat j < 0x8000 + len bank1)
         then byte_val <$> bank1 !! Z.to_nat (Z.of_nat j - 0x8000)
         else memory s !! j) /\
    m' !! Z.to_nat 0xFFFC = Some low /\
    m' !! Z.to_nat 0xFFFD = Some high /\
    load_rom (Some data) s =
      (Ret true,
       mkNES m' (Z.lor (Z.shiftl high 8) low) 0xFD 0 0 0 0x04
             (running s) (thread s)).
Proof.
  intros Hm Hwf bank1 bank2.
  destruct (well_formed_true data Hwf) as (Hlen & Hmagic & b & Hb & Hbanks & Hsize).
  destruct (load_rom_copies data b s bank2 Hm Hlen Hmagic Hb Hsize)
    as (m' & Hlen' & Hlk & low & high & Hlow & Hhigh & Hload).
  { subst bank2. rewrite Hbanks. reflexivity. }
  exists m', low, high. repeat split; assumption.
Qed.

(** X5: the answer of [load_rom] depends on the file alone: it is [True]
    exactly when the file has at least 16 bytes, starts with the magic
    and is at least 16 + data[4] * 16384 bytes long, [False] otherwise,
    never an exception; a refused file leaves the object as it was. *)
Theorem load_rom_answer (data : bytes) (s : NES) :
  mem_ok s ->
  fst (load_rom (Some data) s) = Ret (well_formed data) /\
  (well_formed data = true <->
     16 <= len data /\ slice data 0 4 = magic /\
     16 + prg_banks data * 16384 <= len data) /\
  (well_formed data = false -> snd (load_rom (Some data) s) = s).
Proof.
  intros Hm. split; [|split].
  - destruct (well_formed data) eqn:Hwf.
    + destruct (load_rom_loads data s Hm Hwf) as (m' & low & high & H).
      destruct H as (_ & _ & _ & _ & ->). reflexivity.
    + rewrite (load_rom_refuses data s Hwf). reflexivity.
  - split.
    + intros Hwf.
      destruct (well_formed_true data Hwf) as (Hlen & Hmagic & b & _ & <- & Hsize).
      repeat split; assumption.
    + intros (Hlen & Hmagic & Hsize). unfold well_formed, prg_banks in *.
      destruct (lookup_lt_is_Some_2 data 4%nat) as [b Hb]; [lia|].
      rewrite Hb in *.
      rewrite bool_decide_eq_true_2 by exact Hmagic.
      destruct (Z.leb_spec 16 (len data)); [|lia].
      destruct (Z.leb_spec (16 + byte_val b * 16384) (len data)); [|lia].
      reflexivity.
  - intros Hwf. rewrite (load_rom_refuses data s Hwf). reflexivity.
Qed.

Lemma load_rom_answer_witness :
  fst (load_rom (Some rom_16k) init) = Ret true /\
  fst (load_rom (Some rom_truncated) init) = Ret false.
Proof.
  assert (Hm : mem_ok init) by (vm_compute; reflexivity).
  destruct (load_rom_answer rom_16k init Hm) as (H1 & _).
  destruct (load_rom_answer rom_truncated init Hm) as (H2 & _).
  split.
  - rewrite H1. vm_compute. reflexivity.
  - rewrite H2. vm_compute. reflexivity.
Defined.

Lemma bank_len_le {T : Type} (l : list T) (lo : Z) :
  len (slice l lo (lo + 16384)) <= 16384.
Proof. unfold slice. rewrite length_take. lia. Qed.

(** X6: with two banks or more announced (and present), the loader maps
    the first bank at 0x8000 and the second at 0xC000; the banks after
    the second are not looked at. *)
Theorem load_maps_first_two_banks (data : bytes) (s : NES) :
  mem_ok s ->
  well_formed data = true ->
  2 <= prg_banks data ->
  let s' := snd (load_rom (Some data) s) in
  fst (load_rom (Some data) s) = Ret true /\
  slice (memory s') 0x8000 0xC000 = byte_val <$> slice data 16 (16 + 16384) /\
  slice (memory s') 0xC000 0x10000 =
    byte_val <$> slice data (16 + 16384) (16 + 32768).
Proof.
  intros Hm Hwf Hbanks s'. subst s'.
  destruct (well_formed_true data Hwf) as (Hlen & _ & b & _ & Hb & Hsize).
  destruct (load_rom_loads data s Hm Hwf)
    as (m' & low & high & Hlen' & Hlk & _ & _ & Hload).
  destruct (Z.eqb_spec (prg_banks data) 1) as [?|_]; [lia|].
  rewrite Hload. nes_simpl. unfold mem_ok in Hm.
  assert (H1 : len (slice data 16 (16 + 16384)) = 16384)
    by (rewrite slice_len; lia).
  assert (H2 : len (slice data (16 + 16384) (16 + 32768)) = 16384)
    by (rewrite slice_len; lia).
  split; [reflexivity|]. split.
  - replace 0xC000 with (0x8000 + len (slice data 16 (16 + 16384))) at 1 by lia.
    apply slice_is_bank; [lia | lia |].
    intros j Hj. rewrite Hlk.
    case_decide; [lia|]. case_decide; [reflexivity | lia].
  - replace 0x10000
      with (0xC000 + len (slice data (16 + 16384) (16 + 32768))) by lia.
    apply slice_is_bank; [lia | lia |].
    intros j Hj. rewrite Hlk.
    case_decide; [reflexivity | lia].
Qed.

Lemma load_maps_first_two_banks_witness :
  slice (memory (snd (load_rom (Some rom_48k) init))) 0xC000 0x10000 =
    byte_val <$> slice rom_48k (16 + 16384) (16 + 32768).
Proof.
  destruct (load_maps_first_two_banks rom_48k init) as (_ & _ & H).
  - vm_compute; reflexivity.
  - vm_compute; reflexivity.
  - vm_compute; discriminate.
  - exact H.
Defined.

(** Outside the two windows a load leaves the memory alone, and it never
    touches [running] or [thread]. *)
Lemma load_rom_keeps_low (file : option bytes) (s : NES) :
  mem_ok s ->
  let s' := snd (load_rom file s) in
  mem_ok s' /\ running s' = running s /\ thread s' = thread s /\
  forall j : nat,
    Z.of_nat j < 0x8000 \/ 0x10000 <= Z.of_nat j ->
    memory s' !! j = memory s !! j.
Proof.
  intros Hm s'. subst s'.
  destruct file as [data|]; [|repeat split; exact Hm].
  destruct (well_formed data) eqn:Hwf.
  - destruct (load_rom_loads data s Hm Hwf)
      as (m' & low & high & Hlen' & Hlk & _ & _ & Hload).
    rewrite Hload. nes_simpl.
    split; [unfold mem_ok in *; nes_simpl; lia|].
    split; [reflexivity|]. split; [reflexivity|].
    intros j Hj. rewrite Hlk.
    pose proof (bank_len_le data 16).
    assert (len (if prg_banks data =? 1 then slice data 16 (16 + 16384)
                 else slice data (16 + 16384) (16 + 32768)) <= 16384).
    { destruct (prg_banks data =? 1); [exact H|].
      apply (bank_len_le data (16 + 16384)). }
    case_decide; [lia|]. case_decide; [lia | reflexivity].
  - rewrite (load_rom_refuses data s Hwf). repeat split; exact Hm.
Qed.

(** X7: whatever the file, [load_rom] leaves the cells below 0x8000, the
    [running] flag and the thread handle as they were; when it returns
    [True] the registers are those of a reset and PC is the vector read
    from the new memory; when it returns [False] nothing changed. *)
Theorem load_rom_frame (file : option bytes) (s : NES) :
  mem_ok s ->
  let s' := snd (load_rom file s) in
  (forall j : Z, 0 <= j < 0x8000 ->
     memory s' !! Z.to_nat j = memory s !! Z.to_nat j) /\
  running s' = running s /\
  thread s' = thread s /\
  (fst (load_rom file s) = Ret true ->
   (A s', X s', Y s', P s', sp s') = (0, 0, 0, 0x04, 0xFD) /\
   exists low high : Z,
     memory s' !! Z.to_nat 0xFFFC = Some low /\
     memory s' !! Z.to_nat 0xFFFD = Some high /\
     pc s' = Z.lor (Z.shiftl high 8) low) /\
  (fst (load_rom file s) = Ret false -> s' = s).
Proof.
  intros Hm s'.
  destruct (load_rom_keeps_low file s Hm) as (_ & Hrun & Hthr & Hlow).
  fold s' in Hrun, Hthr, Hlow.
  split; [intros j Hj; apply Hlow; lia|].
  split; [exact Hrun|]. split; [exact Hthr|].
  subst s'. destruct file as [data|].
  - destruct (well_formed data) eqn:Hwf.
    + destruct (load_rom_loads data s Hm Hwf)
        as (m' & low & high & _ & _ & Hl & Hh & Hload).
      rewrite Hload. nes_simpl. split; [|discriminate].
      intros _. split; [reflexivity|]. exists low, high. repeat split; assumption.
    + rewrite (load_rom_refuses data s Hwf). nes_simpl.
      split; [discriminate | reflexivity].
  - cbn [load_rom]. unfold ret. nes_simpl. split; [discriminate | reflexivity].
Qed.

Lemma load_rom_frame_witness :
  running (snd (load_rom (Some rom_16k) started)) = true /\
  memory (snd (load_rom (Some rom_16k) started)) !! Z.to_nat 0x7FFF =
    memory started !! Z.to_nat 0x7FFF.
Proof.
  destruct (load_rom_frame (Some rom_16k) started) as (Hlow & Hrun & _).
  - vm_compute; reflexivity.
  - split.
    + rewrite Hrun. reflexivity.
    + apply Hlow. lia.
Defined.

(** X8: after a successful load of an image with at least one bank, PC
    is the little-endian word at offset 0x3FFC of the bank mapped at
    0xC000: bytes 16 + 0x3FFC and 16 + 0x3FFD of a one-bank file, bytes
    16 + 16384 + 0x3FFC and 16 + 16384 + 0x3FFD otherwise. *)
Theorem load_rom_entry_point (data : bytes) (s : NES) :
  mem_ok s ->
  well_formed data = true ->
  1 <= prg_banks data ->
  let off := if prg_banks data =? 1 then 16 else 16 + 16384 in
  pc (snd (load_rom (Some data) s)) =
    Z.lor (Z.shiftl (file_byte data (off + 0x3FFD)) 8)
          (file_byte data (off + 0x3FFC)).
Proof.
  intros Hm Hwf Hbanks off.
  destruct (well_formed_true data Hwf) as (Hlen & _ & b & _ & Hb & Hsize).
  destruct (load_rom_loads data s Hm Hwf)
    as (m' & low & high & _ & Hlk & Hl & Hh & Hload).
  rewrite Hload. nes_simpl.
  assert (Hbank : forall i : Z, 0 <= i < 16384 ->
    (if prg_banks data =? 1 then slice data 16 (16 + 16384)
     else slice data (16 + 16384) (16 + 32768)) !! Z.to_nat i =
    data !! Z.to_nat (off + i)).
  { intros i Hi. subst off.
    destruct (Z.eqb_spec (prg_banks data) 1) as [_|?];
      rewrite slice_lookup; (case_decide; [f_equal; lia | lia]). }
  assert (Hfull :
    len (if prg_banks data =? 1 then slice data 16 (16 + 16384)
         else slice data (16 + 16384) (16 + 32768)) = 16384).
  { destruct (Z.eqb_spec (prg_banks data) 1) as [_|?];
      rewrite slice_len; lia. }
  assert (Hcell : forall i v : Z, 0 <= i < 16384 ->
    m' !! Z.to_nat (0xC000 + i) = Some v -> v = file_byte data (off + i)).
  { intros i v Hi Hv. rewrite Hlk in Hv.
    case_decide; [|lia].
    replace (Z.to_nat (Z.of_nat (Z.to_nat (0xC000 + i)) - 0xC000))
      with (Z.to_nat i) in Hv by lia.
    rewrite (Hbank i Hi) in Hv. unfold file_byte.
    destruct (data !! Z.to_nat (off + i)); [|discriminate].
    injection Hv as <-. reflexivity. }
  rewrite (Hcell 0x3FFD high), (Hcell 0x3FFC low); [reflexivity | lia | | lia |].
  - replace (0xC000 + 0x3FFC) with 0xFFFC by lia. exact Hl.
  - replace (0xC000 + 0x3FFD) with 0xFFFD by lia. exact Hh.
Qed.

Lemma load_rom_entry_point_witness :
  pc (snd (load_rom (Some rom_32k) init)) =
    Z.lor (Z.shiftl (file_byte rom_32k (16 + 16384 + 0x3FFD)) 8)
          (file_byte rom_32k (16 + 16384 + 0x3FFC)).
Proof.
  apply (load_rom_entry_point rom_32k init).
  - vm_compute; reflexivity.
  - vm_compute; reflexivity.
  - vm_compute; discriminate.
Defined.

(** Two loads of the same image end in the same state when they start
    from states that agree on the flags and on every cell the load does
    not write. *)
Lemma load_rom_same (data : bytes) (s t : NES) :
  mem_ok s -> mem_ok t ->
  well_formed data = true ->
  running t = running s ->
  thread t = thread s ->
  (forall j : nat,
     let bank1 := slice data 16 (16 + 16384) in
     let bank2 := if prg_banks data =? 1 then bank1
                  else slice data (16 + 16384) (16 + 32768) in
     ~ 0xC000 <= Z.of_nat j < 0xC000 + len bank2 ->
     ~ 0x8000 <= Z.of_nat j < 0x8000 + len bank1 ->
     memory t !! j = memory s !! j) ->
  load_rom (Some data) t = load_rom (Some data) s.
Proof.
  intros Hs Ht Hwf Hrun Hthr Hout.
  destruct (load_rom_loads data s Hs Hwf)
    as (m1 & low1 & high1 & _ & Hlk1 & Hl1 & Hh1 & Hload1).
  destruct (load_rom_loads data t Ht Hwf)
    as (m2 & low2 & high2 & _ & Hlk2 & Hl2 & Hh2 & Hload2).
  assert (Hm : m2 = m1).
  { apply list_eq. intros j. rewrite Hlk1, Hlk2.
    case_decide as H1; [reflexivity|].
    case_decide as H2; [reflexivity|].
    exact (Hout j H1 H2). }
  subst m2. rewrite Hl1 in Hl2. rewrite Hh1 in Hh2.
  injection Hl2 as <-. injection Hh2 as <-.
  rewrite Hload1, Hload2, Hrun, Hthr. reflexivity.
Qed.

(** X9: loading an image with at least one bank wipes out what an
    earlier load did: the result is the same as if the earlier file,
    whatever it was, had never been loaded. *)
Theorem load_rom_overrides (earlier : option bytes) (data : bytes) (s : NES) :
  mem_ok s ->
  well_formed data = true ->
  1 <= prg_banks data ->
  load_rom (Some data) (snd (load_rom earlier s)) = load_rom (Some data) s.
Proof.
  intros Hm Hwf Hbanks.
  destruct (load_rom_keeps_low earlier s Hm) as (Hm1 & Hrun & Hthr & Hlow).
  destruct (well_formed_true data Hwf) as (Hlen & _ & b & _ & Hb & Hsize).
  apply load_rom_same; try assumption.
  intros j bank1 bank2 H2 H1. apply Hlow.
  assert (len bank1 = 16384) by (subst bank1; rewrite slice_len; lia).
  assert (len bank2 = 16384).
  { subst bank2 bank1.
    destruct (Z.eqb_spec (prg_banks data) 1) as [_|?]; rewrite slice_len; lia. }
  lia.
Qed.

Lemma load_rom_overrides_witness :
  load_rom (Some rom_16k) (snd (load_rom (Some rom_32k) init)) =
  load_rom (Some rom_16k) init.
Proof.
  apply (load_rom_overrides (Some rom_32k) rom_16k init).
  - vm_compute; reflexivity.
  - vm_compute; reflexivity.
  - vm_compute; discriminate.
Defined.

(** X10: loading is idempotent: for every file, well formed or not,
    loading it a second time right after the first changes nothing and
    gives the same answer. *)
Theorem load_rom_idempotent (file : option bytes) (s : NES) :
  mem_ok s ->
  load_rom file (snd (load_rom file s)) = load_rom file s.
Proof.
  intros Hm. destruct file as [data|]; [|reflexivity].
  destruct (well_formed data) eqn:Hwf.
  - destruct (load_rom_keeps_low (Some data) s Hm) as (Hm1 & Hrun & Hthr & _).
    apply load_rom_same; try assumption.
    intros j bank1 bank2 H2 H1.
    destruct (load_rom_loads data s Hm Hwf)
      as (m' & low & high & _ & Hlk & _ & _ & Hload).
    rewrite Hload. nes_simpl. rewrite Hlk.
    fold bank1. fold bank2.
    case_decide; [contradiction|]. case_decide; [contradiction|]. reflexivity.
  - rewrite !(load_rom_refuses data _ Hwf). reflexivity.
Qed.

Lemma load_rom_idempotent_witness :
  load_rom (Some rom_no_prg) (snd (load_rom (Some rom_no_prg) vector_9000)) =
  load_rom (Some rom_no_prg) vector_9000.
Proof.
  apply (load_rom_idempotent (Some rom_no_prg) vector_9000).
  vm_compute; reflexivity.
Defined.

(** X11: whatever the file, [load_rom] returns a boolean and never
    raises, and it keeps the invariants: the memory still has 65536
    cells, byte-valued cells stay byte-valued, and then a 16-bit PC
    stays 16-bit. *)
Theorem load_rom_keeps_invariants (file : option bytes) (s : NES) :
  mem_ok s ->
  let s' := snd (load_rom file s) in
  (exists r : bool, fst (load_rom file s) = Ret r) /\
  mem_ok s' /\
  (cells_ok s -> cells_ok s') /\
  (cells_ok s -> pc_ok s -> pc_ok s').
Proof.
  intros Hm s'. subst s'.
  destruct (load_rom_total file s Hm) as (r & s1 & Hload & Hm1 & Hinv).
  rewrite Hload. nes_simpl. split; [exists r; reflexivity|].
  split; [exact Hm1|]. split.
  - intros Hc. apply (Hinv Hc).
  - intros Hc. apply (Hinv Hc).
Qed.

Lemma load_rom_keeps_invariants_witness :
  mem_ok (snd (load_rom (Some rom_48k) init)) /\
  cells_ok (snd (load_rom (Some rom_48k) init)) /\
  pc_ok (snd (load_rom (Some rom_48k) init)).
Proof.
  destruct (load_rom_keeps_invariants (Some rom_48k) init)
    as (_ & Hm & Hc & Hp).
  - vm_compute; reflexivity.
  - assert (Hc0 : cells_ok init) by (vm_compute; reflexivity).
    assert (Hp0 : pc_ok init) by (vm_compute; split; discriminate).
    split; [exact Hm|]. split; [exact (Hc Hc0) | exact (Hp Hc0 Hp0)].
Defined.

(** ** Runs of the fetch loop *)

Lemma mod_step (a n : Z) :
  ((a mod 65536 + 1) mod 65536 + n) mod 65536 = (a + (n + 1)) mod 65536.
Proof.
  rewrite Z.add_mod_idemp_l by lia.
  rewrite <- Z.add_assoc, Z.add_mod_idemp_l by lia.
  f_equal. lia.
Qed.

Lemma peek_lookup (s : NES) (a b : Z) :
  memory s !! Z.to_nat (a mod 65536) = Some b -> peek s a = b.
Proof. unfold peek. intros ->. reflexivity. Qed.

Lemma lookup_peek (s : NES) (a : Z) :
  mem_ok s -> memory s !! Z.to_nat (a mod 65536) = Some (peek s a).
Proof.
  intros Hm.
  destruct (lookup_mem_ok s (a mod 65536) Hm) as [b Hb];
    [apply Z.mod_pos_bound; lia|].
  rewrite (peek_lookup s a b Hb). exact Hb.
Qed.

(** One iteration, in terms of the byte at PC. *)
Lemma loop_body_peek (s : NES) :
  mem_ok s ->
  loop_body s =
    (Ret (peek s (pc s)),
     let s1 := set_pc ((pc s mod 65536 + 1) mod 65536) s in
     if peek s (pc s) =? 0x00 then set_running false s1 else s1).
Proof. intros Hm. apply loop_body_run, lookup_peek, Hm. Qed.

(** What any finished run of the loop did. *)
Lemma emulator_loop_trace (fuel : nat) :
  forall (s s' : NES) (fetched : list Z),
  mem_ok s ->
  emulator_loop fuel s = Some (fetched, s') ->
  memory s' = memory s /\
  (A s', X s', Y s', P s', sp s') = (A s, X s, Y s, P s, sp s) /\
  thread s' = thread s /\
  running s' = false /\
  (forall (i : nat) (b : Z),
     fetched !! i = Some b -> b = peek s (pc s + Z.of_nat i)) /\
  (fetched = [] -> s' = s) /\
  (fetched <> [] -> pc s' = (pc s + len fetched) mod 65536) /\
  (running s = true -> 0 ∈ fetched).
Proof.
  induction fuel as [|fuel IH]; intros s s' fetched Hm Hloop; [discriminate|].
  cbn [emulator_loop] in Hloop.
  destruct (running s) eqn:Hrun.
  - rewrite (loop_body_peek s Hm) in Hloop. cbv zeta in Hloop.
    set (s1 := if peek s (pc s) =? 0
               then set_running false (set_pc ((pc s mod 65536 + 1) mod 65536) s)
               else set_pc ((pc s mod 65536 + 1) mod 65536) s) in *.
    destruct (emulator_loop fuel s1) as [[tr s2]|] eqn:Hrest; [|discriminate].
    injection Hloop as <- <-.
    assert (Hmem1 : memory s1 = memory s)
      by (subst s1; destruct (peek s (pc s) =? 0); reflexivity).
    assert (Hpc1 : pc s1 = (pc s mod 65536 + 1) mod 65536)
      by (subst s1; destruct (peek s (pc s) =? 0); reflexivity).
    assert (Hregs1 : (A s1, X s1, Y s1, P s1, sp s1, thread s1) =
                     (A s, X s, Y s, P s, sp s, thread s))
      by (subst s1; destruct (peek s (pc s) =? 0); reflexivity).
    assert (Hm1 : mem_ok s1) by (unfold mem_ok; rewrite Hmem1; exact Hm).
    destruct (IH s1 s2 tr Hm1 Hrest)
      as (Hmem & Hregs & Hthr & Hstop & Hbytes & Hnil & Hpc & Hzero).
    injection Hregs1 as HA HX HY HP Hsp Hthr1.
    split; [congruence|]. split; [congruence|]. split; [congruence|].
    split; [exact Hstop|]. split; [|split; [discriminate|split]].
    + intros [|i] b Hb.
      * injection Hb as <-. f_equal. lia.
      * cbn in Hb. apply Hbytes in Hb. rewrite Hb. unfold peek.
        rewrite Hmem1, Hpc1, mod_step. do 4 f_equal. lia.
    + intros _. destruct tr as [|b tr].
      * rewrite (Hnil eq_refl), Hpc1. cbn [length].
        rewrite Z.add_mod_idemp_l by lia. reflexivity.
      * rewrite Hpc by discriminate. rewrite Hpc1, mod_step.
        f_equal. cbn [length]. lia.
    + intros _. destruct (Z.eqb_spec (peek s (pc s)) 0) as [->|Hne].
      * apply list_elem_of_here.
      * apply list_elem_of_further, Hzero. subst s1. exact Hrun.
  - injection Hloop as <- <-. repeat split; try reflexivity; try assumption.
    + intros i b Hb. discriminate.
    + intros H. contradiction.
    + discriminate.
Qed.

(** X12: a finished run of the loop has only moved PC and cleared
    [running]: memory, A, X, Y, P, SP and the thread handle are as
    before; the opcodes it fetched are the bytes at PC, PC + 1, ... in
    order (modulo 65536) and PC has advanced by their number (modulo
    65536); if it fetched nothing the state is untouched. *)
Theorem emulator_loop_effect (fuel : nat) (s s' : NES) (fetched : list Z) :
  mem_ok s ->
  emulator_loop fuel s = Some (fetched, s') ->
  memory s' = memory s /\
  (A s', X s', Y s', P s', sp s') = (A s, X s, Y s, P s, sp s) /\
  thread s' = thread s /\
  running s' = false /\
  (forall (i : nat) (b : Z),
     fetched !! i = Some b -> b = peek s (pc s + Z.of_nat i)) /\
  (fetched = [] -> s' = s) /\
  (fetched <> [] -> pc s' = (pc s + len fetched) mod 65536).
Proof.
  intros Hm Hloop.
  destruct (emulator_loop_trace fuel s s' fetched Hm Hloop)
    as (H1 & H2 & H3 & H4 & H5 & H6 & H7 & _).
  repeat split; assumption.
Qed.

Lemma emulator_loop_more_fuel (fuel : nat) :
  forall (s : NES) (r : list Z * NES) (fuel' : nat),
  emulator_loop fuel s = Some r ->
  (fuel <= fuel')%nat ->
  emulator_loop fuel' s = Some r.
Proof.
  induction fuel as [|fuel IH]; intros s r fuel' Hloop Hle; [discriminate|].
  destruct fuel' as [|fuel']; [lia|].
  cbn [emulator_loop] in *.
  destruct (running s); [|exact Hloop].
  destruct (loop_body s) as [[b|e] s1]; [|exact Hloop].
  destruct (emulator_loop fuel s1) as [[tr s2]|] eqn:Hrest; [|discriminate].
  rewrite (IH s1 (tr, s2) fuel' Hrest) by lia. exact Hloop.
Qed.

(** The run up to the first halt opcode, [k] bytes after PC. *)
Lemma loop_run_prefix (k : nat) :
  forall s : NES,
  mem_ok s ->
  running s = true ->
  (forall i : nat, (i < k)%nat -> peek s (pc s + Z.of_nat i) <> 0) ->
  peek s (pc s + Z.of_nat k) = 0 ->
  exists fetched : list Z,
    emulator_loop (S (S k)) s =
      Some (fetched,
            set_running false
              (set_pc ((pc s + Z.of_nat k + 1) mod 65536) s)) /\
    length fetched = S k.
Proof.
  induction k as [|k IH]; intros s Hm Hrun Hnz Hz.
  - exists [0]. split; [|reflexivity].
    cbn [emulator_loop]. rewrite Hrun, (loop_body_peek s Hm). cbv zeta.
    replace (pc s + Z.of_nat 0) with (pc s) in * by lia. rewrite Hz.
    change (0 =? 0) with true. cbv iota. cbn [running set_running].
    rewrite Z.add_mod_idemp_l by lia. reflexivity.
  - assert (Hb : peek s (pc s) <> 0).
    { specialize (Hnz 0%nat). replace (pc s + Z.of_nat 0) with (pc s) in Hnz by lia.
      apply Hnz. lia. }
    set (s1 := set_pc ((pc s mod 65536 + 1) mod 65536) s).
    assert (Hpeek : forall i : Z, peek s1 (pc s1 + i) = peek s (pc s + (i + 1))).
    { intros i. unfold peek. subst s1. nes_simpl. rewrite mod_step. reflexivity. }
    destruct (IH s1) as (tr & Hrest & Hlen).
    + exact Hm.
    + exact Hrun.
    + intros i Hi. rewrite Hpeek.
      replace (Z.of_nat i + 1) with (Z.of_nat (S i)) by lia. apply Hnz. lia.
    + rewrite Hpeek. replace (Z.of_nat k + 1) with (Z.of_nat (S k)) by lia.
      exact Hz.
    + exists (peek s (pc s) :: tr). split; [|cbn [length]; lia].
      change (emulator_loop (S (S (S k))) s)
        with (if running s then
                match loop_body s with
                | (Ret opcode, s1) =>
                  match emulator_loop (S (S k)) s1 with
                  | Some (fetched, s2) => Some (opcode :: fetched, s2)
                  | None => None
                  end
                | (Raise _, s1) => Some ([], set_running false s1)
                end
              else Some ([], s)).
      rewrite Hrun, (loop_body_peek s Hm). cbv zeta.
      destruct (Z.eqb_spec (peek s (pc s)) 0) as [?|_]; [contradiction|].
      fold s1. rewrite Hrest. subst s1. nes_simpl. unfold set_pc. nes_simpl.
      rewrite <- Z.add_assoc, mod_step.
      replace (pc s + (Z.of_nat k + 1 + 1)) with (pc s + Z.of_nat (S k) + 1) by lia.
      reflexivity.
Qed.

Lemma emulator_loop_effect_witness :
  pc (set_running false (set_pc 1 started)) =
    (pc started + len [0x00]) mod 65536.
Proof.
  destruct (emulator_loop_effect 2 started
              (set_running false (set_pc 1 started)) [0x00])
    as (_ & _ & _ & _ & _ & _ & Hpc).
  - vm_compute; reflexivity.
  - cbn [emulator_loop]. change (running started) with true. cbv iota.
    rewrite (loop_body_run started 0) by (vm_compute; reflexivity).
    reflexivity.
  - apply Hpc. discriminate.
Defined.

(** X13: a running loop goes on to the first halt opcode: when the [k]
    bytes from PC on are not 0x00 and the next one is, the loop, given
    enough fuel, fetches exactly these [k + 1] bytes and stops with PC
    just past the 0x00 (modulo 65536) and everything else unchanged. *)
Theorem emulator_loop_runs_to_first_zero (s : NES) (k fuel : nat) :
  mem_ok s ->
  running s = true ->
  (forall i : nat, (i < k)%nat -> peek s (pc s + Z.of_nat i) <> 0) ->
  peek s (pc s + Z.of_nat k) = 0 ->
  (k + 2 <= fuel)%nat ->
  exists fetched : list Z,
    emulator_loop fuel s =
      Some (fetched,
            set_running false
              (set_pc ((pc s + Z.of_nat k + 1) mod 65536) s)) /\
    length fetched = S k /\
    forall i : nat, (i <= k)%nat ->
      fetched !! i = Some (peek s (pc s + Z.of_nat i)).
Proof.
  intros Hm Hrun Hnz Hz Hfuel.
  destruct (loop_run_prefix k s Hm Hrun Hnz Hz) as (fetched & Hloop & Hlen).
  exists fetched.
  split; [apply (emulator_loop_more_fuel _ _ _ _ Hloop); lia|].
  split; [exact Hlen|].
  intros i Hi.
  destruct (lookup_lt_is_Some_2 fetched i) as [b Hb]; [lia|].
  destruct (emulator_loop_trace _ _ _ _ Hm Hloop) as (_ & _ & _ & _ & Hbytes & _).
  rewrite Hb. f_equal. exact (Hbytes i b Hb).
Qed.

Lemma emulator_loop_runs_to_first_zero_witness :
  exists fetched : list Z,
    emulator_loop 4 two_then_halt =
      Some (fetched,
            set_running false
              (set_pc ((pc two_then_halt + Z.of_nat 2 + 1) mod 65536)
                      two_then_halt)) /\
    length fetched = 3%nat /\
    forall i : nat, (i <= 2)%nat ->
      fetched !! i = Some (peek two_then_halt (pc two_then_halt + Z.of_nat i)).
Proof.
  apply (emulator_loop_runs_to_first_zero two_then_halt 2 4).
  - vm_compute; reflexivity.
  - reflexivity.
  - intros [|[|i]] Hi; [vm_compute; discriminate | vm_compute; discriminate | lia].
  - vm_compute; reflexivity.
  - lia.
Defined.

(** The first index from which a decidable property holds. *)
Lemma least_index (Q : nat -> bool) (d : nat) :
  Q d = true ->
  exists k : nat,
    (k <= d)%nat /\ Q k = true /\ forall i : nat, (i < k)%nat -> Q i = false.
Proof.
  intros Hd.
  assert (H : forall n : nat,
    (exists k : nat, (k < n)%nat /\ Q k = true /\
                     forall i : nat, (i < k)%nat -> Q i = false) \/
    (forall i : nat, (i < n)%nat -> Q i = false)).
  { induction n as [|n [Hfound|Hnone]].
    - right. intros i Hi. lia.
    - left. destruct Hfound as (k & Hk & Hrest). exists k. split; [lia | exact Hrest].
    - destruct (Q n) eqn:Hn.
      + left. exists n. split; [lia|]. split; [exact Hn | exact Hnone].
      + right. intros i Hi.
        destruct (decide (i = n)) as [->|?]; [exact Hn | apply Hnone; lia]. }
  destruct (H (S d)) as [(k & Hk & Hrest)|Hnone].
  - exists k. split; [lia | exact Hrest].
  - rewrite (Hnone d) in Hd by lia. discriminate.
Qed.

(** X14: a running loop ends if and only if the memory holds a 0x00
    somewhere: with one, the loop stops after at most 65536 fetches (PC
    wraps around and meets it); without one, no amount of fuel lets it
    finish. *)
Theorem emulator_loop_ends_iff (s : NES) :
  mem_ok s ->
  running s = true ->
  ((exists (fuel : nat) (r : list Z * NES), emulator_loop fuel s = Some r) <->
   (exists z : nat, memory s !! z = Some 0)) /\
  ((exists z : nat, memory s !! z = Some 0) ->
   exists r : list Z * NES,
     len (fst r) <= 65536 /\
     forall fuel : nat, 65537 <= Z.of_nat fuel -> emulator_loop fuel s = Some r) /\
  ((forall z : nat, memory s !! z <> Some 0) ->
   forall fuel : nat, emulator_loop fuel s = None).
Proof.
  intros Hm Hrun.
  assert (Hends : forall (fuel : nat) (r : list Z * NES),
    emulator_loop fuel s = Some r -> exists z : nat, memory s !! z = Some 0).
  { intros fuel [fetched s'] Hloop.
    destruct (emulator_loop_trace _ _ _ _ Hm Hloop)
      as (_ & _ & _ & _ & Hbytes & _ & _ & Hzero).
    apply list_elem_of_lookup_1 in Hzero as [i Hi]; [|exact Hrun].
    exists (Z.to_nat ((pc s + Z.of_nat i) mod 65536)).
    rewrite (lookup_peek s _ Hm). f_equal. symmetry. exact (Hbytes i 0 Hi). }
  assert (Hzero : (exists z : nat, memory s !! z = Some 0) ->
    exists r : list Z * NES,
      len (fst r) <= 65536 /\
      forall fuel : nat, 65537 <= Z.of_nat fuel -> emulator_loop fuel s = Some r).
  { intros [z Hz].
    assert (Hzlt : Z.of_nat z < 65536).
    { apply lookup_lt_Some in Hz. unfold mem_ok in Hm. lia. }
    set (d := Z.to_nat ((Z.of_nat z - pc s) mod 65536)).
    assert (Hd : Z.of_nat d < 65536).
    { subst d. pose proof (Z.mod_pos_bound (Z.of_nat z - pc s) 65536). lia. }
    assert (HQ : (peek s (pc s + Z.of_nat d) =? 0) = true).
    { apply Z.eqb_eq. apply peek_lookup.
      replace ((pc s + Z.of_nat d) mod 65536) with (Z.of_nat z).
      - rewrite Nat2Z.id. exact Hz.
      - subst d. rewrite Z2Nat.id by (apply Z.mod_pos_bound; lia).
        rewrite Z.add_mod_idemp_r by lia.
        replace (pc s + (Z.of_nat z - pc s)) with (Z.of_nat z) by lia.
        symmetry. apply Z.mod_small. lia. }
    destruct (least_index (fun i => peek s (pc s + Z.of_nat i) =? 0) d HQ)
      as (k & Hk & Hkz & Hbefore).
    apply Z.eqb_eq in Hkz.
    destruct (loop_run_prefix k s Hm Hrun) as (fetched & Hloop & Hlen).
    { intros i Hi. apply Z.eqb_neq. apply Hbefore. exact Hi. }
    { exact Hkz. }
    eexists (fetched, _). split.
    - cbn [fst]. lia.
    - intros fuel Hfuel.
      apply (emulator_loop_more_fuel _ _ _ _ Hloop). lia. }
  split; [|split].
  - split.
    + intros (fuel & r & Hloop). exact (Hends fuel r Hloop).
    + intros Hz. destruct (Hzero Hz) as (r & _ & Hr).
      exists (Z.to_nat 65537), r. apply Hr. lia.
  - exact Hzero.
  - intros Hnone fuel.
    destruct (emulator_loop fuel s) as [r|] eqn:Hloop; [|reflexivity].
    destruct (Hends fuel r Hloop) as [z Hz]. destruct (Hnone z Hz).
Qed.

Lemma emulator_loop_ends_iff_witness :
  (exists r : list Z * NES,
     len (fst r) <= 65536 /\
     forall fuel : nat,
       65537 <= Z.of_nat fuel -> emulator_loop fuel two_then_halt = Some r) /\
  emulator_loop 1000 nop_sled = None.
Proof.
  destruct (emulator_loop_ends_iff two_then_halt) as (_ & Hends & _).
  { vm_compute; reflexivity. }
  { reflexivity. }
  destruct (emulator_loop_ends_iff nop_sled) as (_ & _ & Hnever).
  { vm_compute; reflexivity. }
  { reflexivity. }
  split.
  - apply Hends. exists 2%nat. reflexivity.
  - apply Hnever. intros z Hz.
    apply lookup_replicate_1 in Hz as [Hz _]. discriminate.
Defined.

(** ** Fetching and resetting *)

(** X15: [fetch_byte] reads what [read_byte] reads at PC, for any value
    of PC and any memory, failures included: both return the same byte or
    both raise [IndexError].  On success PC becomes PC + 1 modulo 65536;
    on failure PC is left masked to 16 bits and not advanced. *)
Theorem fetch_byte_reads_at_pc (s : NES) :
  fst (fetch_byte s) = fst (read_byte (pc s) s) /\
  (forall b : Z, fst (fetch_byte s) = Ret b ->
     snd (fetch_byte s) = set_pc ((pc s + 1) mod 65536) s) /\
  (forall e : exn, fst (fetch_byte s) = Raise e ->
     snd (fetch_byte s) = set_pc (pc s mod 65536) s).
Proof.
  unfold fetch_byte, read_byte, mem_get, bind, gets, modify, lift_option, ret.
  nes_simpl. rewrite !land_FFFF.
  destruct (getitem (memory s) (pc s mod 65536)) as [b|]; nes_simpl.
  - split; [reflexivity|]. split; [|discriminate].
    intros _ _. rewrite land_FFFF, Z.add_mod_idemp_l by lia. reflexivity.
  - split; [reflexivity|]. split; [discriminate|]. reflexivity.
Qed.

(** X16: [reset] forgets the registers it finds: two objects with the
    same memory and flags are the same after a reset, whatever their
    registers were; resetting twice is resetting once; and a reset does
    not change the memory. *)
Theorem reset_forgets_registers (s t : NES) :
  mem_ok s ->
  memory t = memory s ->
  running t = running s ->
  thread t = thread s ->
  reset t = reset s /\
  reset (snd (reset s)) = reset s /\
  memory (snd (reset s)) = memory s.
Proof.
  intros Hm Hmem Hrun Hthr.
  destruct (lookup_mem_ok s 0xFFFC Hm) as [low Hl]; [lia|].
  destruct (lookup_mem_ok s 0xFFFD Hm) as [high Hh]; [lia|].
  rewrite (reset_run s low high Hl Hh).
  rewrite (reset_run t low high) by (rewrite Hmem; assumption).
  rewrite Hmem, Hrun, Hthr. nes_simpl.
  split; [reflexivity|]. split; [|reflexivity].
  rewrite (reset_run _ low high) by assumption. reflexivity.
Qed.

Lemma reset_forgets_registers_witness :
  reset pc_at_top = reset init /\
  reset (snd (reset init)) = reset init.
Proof.
  destruct (reset_forgets_registers init pc_at_top) as (H1 & H2 & _).
  - vm_compute; reflexivity.
  - reflexivity.
  - reflexivity.
  - reflexivity.
  - split; [exact H1 | exact H2].
Defined.

(** * The window *)

Ltac gui_simpl :=
  cbn [GUI.machine GUI.start_btn GUI.stop_btn GUI.console
       GUI.set_machine GUI.set_start_btn GUI.set_stop_btn GUI.log_message
       GUI.stop_emulator_finish GUI.start_emulator
       nes threads caller set_caller].

(** No event changes the size of the memory. *)
Lemma gui_handle_mem_ok (e : GUI.event) (g g' : GUI.t) :
  mem_ok (nes (GUI.machine g)) ->
  GUI.handle e g = Some g' ->
  mem_ok (nes (GUI.machine g')).
Proof.
  intros Hm He. destruct e as [p f| | | |th]; cbn [GUI.handle] in He.
  - destruct (GUI.idle g); [|discriminate]. injection He as <-.
    unfold GUI.load_rom. destruct (bool_decide (p = "")); [exact Hm|].
    destruct (load_rom_total f _ Hm) as (r & s1 & Hload & Hm1 & _).
    rewrite Hload. destruct r; exact Hm1.
  - destruct (GUI.idle g && _); [|discriminate]. injection He as <-.
    gui_simpl. unfold start. destruct (running _); exact Hm.
  - destruct (GUI.idle g && _); [|discriminate]. injection He as <-.
    unfold GUI.stop_emulator, stop.
    destruct (running _); cbn [negb]; [|exact Hm].
    destruct (thread _); exact Hm.
  - destruct (caller (GUI.machine g)) as [|[| |th] [|c k]] eqn:Hc;
      try discriminate.
    unfold caller_step in He. rewrite Hc in He.
    destruct (threads _ !! th) as [[| |]|]; try discriminate.
    injection He as <-. exact Hm.
  - unfold step in He.
    destruct (threads _ !! th) as [l|]; [|discriminate].
    destruct l; cbn [loop_step] in He.
    + destruct (running _).
      * destruct (loop_body_keeps _ Hm) as (b & s1 & Hbody & Hmem & _).
        rewrite Hbody in He. injection He as <-.
        unfold mem_ok. gui_simpl. rewrite Hmem. exact Hm.
      * injection He as <-. exact Hm.
    + injection He as <-. exact Hm.
    + discriminate.
Qed.

(** Once one of the two buttons is enabled, one of them stays enabled. *)
Lemma gui_handle_keeps_enabled (e : GUI.event) (g g' : GUI.t) :
  GUI.handle e g = Some g' ->
  GUI.start_btn g = GUI.NORMAL \/ GUI.stop_btn g = GUI.NORMAL ->
  GUI.start_btn g' = GUI.NORMAL \/ GUI.stop_btn g' = GUI.NORMAL.
Proof.
  intros He Hen. destruct e as [p f| | | |th]; cbn [GUI.handle] in He.
  - destruct (GUI.idle g); [|discriminate]. injection He as <-.
    unfold GUI.load_rom. destruct (bool_decide (p = "")); [exact Hen|].
    destruct (load_rom f _) as [[[|]|x] s1]; gui_simpl;
      [left; reflexivity | exact Hen | exact Hen].
  - destruct (GUI.idle g && _); [|discriminate]. injection He as <-.
    right. reflexivity.
  - destruct (GUI.idle g && _); [|discriminate]. injection He as <-.
    unfold GUI.stop_emulator. destruct (stop _) as [w' [th|]].
    + exact Hen.
    + left. reflexivity.
  - destruct (caller (GUI.machine g)) as [|[| |th] [|c k]]; try discriminate.
    destruct (caller_step _); [|discriminate]. injection He as <-.
    left. reflexivity.
  - destruct (step _ _); [|discriminate]. injection He as <-. exact Hen.
Qed.

(** Picking a well-formed file enables "Start". *)
Lemma gui_good_load_enables (e : GUI.event) (g g' : GUI.t) :
  mem_ok (nes (GUI.machine g)) ->
  GUI.good_load e = true ->
  GUI.handle e g = Some g' ->
  GUI.start_btn g' = GUI.NORMAL.
Proof.
  intros Hm Hgood He.
  destruct e as [p [data|]| | | |th]; try discriminate.
  cbn [GUI.good_load] in Hgood. apply andb_prop in Hgood as [Hp Hwf].
  cbn [GUI.handle] in He. destruct (GUI.idle g); [|discriminate].
  injection He as <-. unfold GUI.load_rom.
  destruct (bool_decide (p = "")); [discriminate|].
  destruct (load_rom_loads data _ Hm Hwf) as (m' & low & high & H).
  destruct H as (_ & _ & _ & _ & ->). reflexivity.
Qed.

(** Before any well-formed file has been picked nothing can happen to
    the machine or to the buttons. *)
Lemma gui_handle_pristine (e : GUI.event) (g g' : GUI.t) :
  GUI.good_load e = false ->
  GUI.handle e g = Some g' ->
  GUI.machine g = boot [] ->
  GUI.start_btn g = GUI.DISABLED ->
  GUI.stop_btn g = GUI.DISABLED ->
  GUI.machine g' = boot [] /\
  GUI.start_btn g' = GUI.DISABLED /\
  GUI.stop_btn g' = GUI.DISABLED.
Proof.
  intros Hgood He Hmach Hstart Hstop.
  destruct e as [p f| | | |th]; cbn [GUI.handle] in He.
  - destruct (GUI.idle g); [|discriminate]. injection He as <-.
    unfold GUI.load_rom. cbn [GUI.good_load] in Hgood.
    destruct (bool_decide (p = "")); [repeat split; assumption|].
    rewrite Hmach. cbn [nes threads caller boot].
    destruct f as [data|].
    + cbn [negb andb] in Hgood. rewrite (load_rom_refuses data init Hgood).
      gui_simpl. repeat split; assumption.
    + cbn [load_rom]. unfold ret. gui_simpl. repeat split; assumption.
  - rewrite Hstart, andb_false_r in He. discriminate.
  - rewrite Hstop, andb_false_r in He. discriminate.
  - rewrite Hmach in He. discriminate.
  - rewrite Hmach in He. discriminate.
Qed.

Lemma gui_run_enabled (events : list GUI.event) :
  forall g g' : GUI.t,
  mem_ok (nes (GUI.machine g)) ->
  GUI.run events g = Some g' ->
  (GUI.start_btn g = GUI.NORMAL \/ GUI.stop_btn g = GUI.NORMAL) \/
  (exists e : GUI.event, e ∈ events /\ GUI.good_load e = true) ->
  GUI.start_btn g' = GUI.NORMAL \/ GUI.stop_btn g' = GUI.NORMAL.
Proof.
  induction events as [|e events IH]; intros g g' Hm Hrun Hcause.
  - injection Hrun as <-. destruct Hcause as [Hen|(e & He & _)]; [exact Hen|].
    apply elem_of_nil in He. destruct He.
  - cbn [GUI.run] in Hrun.
    destruct (GUI.handle e g) as [g1|] eqn:He; [|discriminate].
    apply (IH g1 g' (gui_handle_mem_ok e g g1 Hm He) Hrun).
    destruct Hcause as [Hen|(e' & Hin & Hgood)].
    + left. exact (gui_handle_keeps_enabled e g g1 He Hen).
    + apply elem_of_cons in Hin as [->|Hin].
      * left. left. exact (gui_good_load_enables e g g1 Hm Hgood He).
      * right. exists e'. split; assumption.
Qed.

Lemma gui_run_pristine (events : list GUI.event) :
  forall g g' : GUI.t,
  GUI.run events g = Some g' ->
  (forall e : GUI.event, e ∈ events -> GUI.good_load e = false) ->
  GUI.machine g = boot [] ->
  GUI.start_btn g = GUI.DISABLED ->
  GUI.stop_btn g = GUI.DISABLED ->
  GUI.machine g' = boot [] /\
  GUI.start_btn g' = GUI.DISABLED /\
  GUI.stop_btn g' = GUI.DISABLED.
Proof.
  induction events as [|e events IH]; intros g g' Hrun Hnone Hmach Hstart Hstop.
  - injection Hrun as <-. repeat split; assumption.
  - cbn [GUI.run] in Hrun.
    destruct (GUI.handle e g) as [g1|] eqn:He; [|discriminate].
    destruct (gui_handle_pristine e g g1) as (H1 & H2 & H3); try assumption.
    { apply Hnone. apply elem_of_cons. left. reflexivity. }
    apply (IH g1 g' Hrun); try assumption.
    intros e' Hin. apply Hnone. apply elem_of_cons. right. exact Hin.
Qed.

Lemma good_load_somewhere (events : list GUI.event) :
  (exists e : GUI.event, e ∈ events /\ GUI.good_load e = true) \/
  (forall e : GUI.event, e ∈ events -> GUI.good_load e = false).
Proof.
  induction events as [|e events [(e' & Hin & Hgood)|Hnone]].
  - right. intros e He. apply elem_of_nil in He. destruct He.
  - left. exists e'. split; [apply elem_of_cons; right; exact Hin | exact Hgood].
  - destruct (GUI.good_load e) eqn:He.
    + left. exists e. split; [apply elem_of_cons; left; reflexivity | exact He].
    + right. intros e' Hin. apply elem_of_cons in Hin as [->|Hin];
        [exact He | exact (Hnone e' Hin)].
Qed.

(** X17: in the window, after any sequence of events, "Start" or "Stop"
    is enabled exactly when some earlier click on "Load ROM" picked a
    well-formed file (a non-empty path whose contents pass the three
    checks of the loader); and as long as none did, the machine is still
    the fresh one: no thread, nothing loaded, not running. *)
Theorem gui_buttons_need_a_rom (events : list GUI.event) (g : GUI.t) :
  GUI.run events GUI.init = Some g ->
  ((GUI.start_btn g = GUI.NORMAL \/ GUI.stop_btn g = GUI.NORMAL) <->
   (exists e : GUI.event, e ∈ events /\ GUI.good_load e = true)) /\
  ((forall e : GUI.event, e ∈ events -> GUI.good_load e = false) ->
   GUI.machine g = boot []).
Proof.
  intros Hrun.
  assert (Hm : mem_ok (nes (GUI.machine GUI.init))) by (vm_compute; reflexivity).
  split; [split|].
  - intros Hen.
    destruct (good_load_somewhere events) as [Hsome|Hnone]; [exact Hsome|].
    destruct (gui_run_pristine events GUI.init g Hrun Hnone)
      as (_ & Hstart & Hstop); try reflexivity.
    destruct Hen as [Hen|Hen]; [rewrite Hstart in Hen | rewrite Hstop in Hen];
      discriminate.
  - intros Hsome. apply (gui_run_enabled events GUI.init g Hm Hrun).
    right. exact Hsome.
  - intros Hnone.
    destruct (gui_run_pristine events GUI.init g Hrun Hnone)
      as (Hmach & _); reflexivity || exact Hmach.
Qed.

Lemma gui_load_rom_keeps_caller
    (rom_path : string) (file : option bytes) (g : GUI.t) :
  caller (GUI.machine (GUI.load_rom rom_path file g)) = caller (GUI.machine g).
Proof.
  unfold GUI.load_rom. destruct (bool_decide (rom_path = "")); [reflexivity|].
  destruct (load_rom file _) as [[[|]|x] s1]; reflexivity.
Qed.

Lemma gui_run_cons (e : GUI.event) (events : list GUI.event) (g : GUI.t) :
  GUI.run (e :: events) g =
    match GUI.handle e g with
    | Some g' => GUI.run events g'
    | None => None
    end.
Proof. reflexivity. Qed.

Lemma gui_handle_load (rom_path : string) (file : option bytes) (g : GUI.t) :
  GUI.idle g = true ->
  GUI.handle (GUI.LoadClicked rom_path file) g =
    Some (GUI.load_rom rom_path file g).
Proof. intros H. cbn [GUI.handle]. rewrite H. reflexivity. Qed.

Lemma gui_handle_start (g : GUI.t) :
  GUI.idle g = true ->
  GUI.start_btn g = GUI.NORMAL ->
  GUI.handle GUI.StartClicked g = Some (GUI.start_emulator g).
Proof. intros H1 H2. cbn [GUI.handle]. rewrite H1, H2. reflexivity. Qed.

Lemma gui_run_load_start
    (rom_path : string) (file : option bytes) (g : GUI.t) :
  GUI.idle g = true ->
  GUI.idle (GUI.load_rom rom_path file g) = true ->
  GUI.start_btn (GUI.load_rom rom_path file g) = GUI.NORMAL ->
  GUI.run [GUI.LoadClicked rom_path file; GUI.StartClicked] g =
    Some (GUI.start_emulator (GUI.load_rom rom_path file g)).
Proof.
  intros H1 H2 H3.
  rewrite gui_run_cons, (gui_handle_load _ _ _ H1).
  rewrite gui_run_cons, (gui_handle_start _ H2 H3). reflexivity.
Qed.

Lemma gui_loaded_ready :
  GUI.idle gui_loaded = true /\ GUI.start_btn gui_loaded = GUI.NORMAL.
Proof.
  split.
  - unfold GUI.idle. rewrite gui_load_rom_keeps_caller. reflexivity.
  - apply (gui_good_load_enables
             (GUI.LoadClicked "game.nes" (Some rom_16k)) GUI.init).
    + vm_compute; reflexivity.
    + vm_compute; reflexivity.
    + apply gui_handle_load. reflexivity.
Qed.

Lemma gui_buttons_need_a_rom_witness :
  GUI.run [GUI.LoadClicked "game.nes" (Some rom_16k); GUI.StartClicked]
          GUI.init = Some gui_started /\
  (GUI.start_btn gui_started = GUI.NORMAL \/
   GUI.stop_btn gui_started = GUI.NORMAL).
Proof.
  assert (Hrun :
    GUI.run [GUI.LoadClicked "game.nes" (Some rom_16k); GUI.StartClicked]
            GUI.init = Some gui_started).
  { destruct gui_loaded_ready as [Hidle Hstart].
    exact (gui_run_load_start "game.nes" (Some rom_16k) GUI.init
             eq_refl Hidle Hstart). }
  split; [exact Hrun|].
  destruct (gui_buttons_need_a_rom _ _ Hrun) as [[_ Hen] _].
  apply Hen. exists (GUI.LoadClicked "game.nes" (Some rom_16k)).
  split; [apply elem_of_cons; left; reflexivity | vm_compute; reflexivity].
Defined.

(** X18: a click on "Load ROM" that fails (the dialog was cancelled, the
    file could not be read, or its contents are refused) changes nothing
    but the console, which gets the line "Failed to load ROM.": the
    machine keeps the ROM it had and the buttons keep their state. *)
Theorem gui_failed_load_changes_nothing
    (rom_path : string) (file : option bytes) (g : GUI.t) :
  GUI.idle g = true ->
  GUI.good_load (GUI.LoadClicked rom_path file) = false ->
  GUI.handle (GUI.LoadClicked rom_path file) g =
    Some (GUI.log_message "Failed to load ROM." g) /\
  GUI.machine (GUI.log_message "Failed to load ROM." g) = GUI.machine g /\
  GUI.console (GUI.log_message "Failed to load ROM." g) =
    GUI.console g ++ ["Failed to load ROM." +:+ GUI.newline].
Proof.
  intros Hidle Hgood. split; [|split; reflexivity].
  cbn [GUI.handle]. rewrite Hidle. f_equal.
  unfold GUI.load_rom. cbn [GUI.good_load] in Hgood.
  destruct (bool_decide (rom_path = "")); [reflexivity|].
  assert (Hw : forall w : world, mkWorld (nes w) (threads w) (caller w) = w)
    by (intros [? ? ?]; reflexivity).
  assert (Hg : GUI.set_machine (GUI.machine g) g = g)
    by (destruct g; reflexivity).
  destruct file as [data|].
  - cbn [negb andb] in Hgood. rewrite (load_rom_refuses data _ Hgood).
    rewrite Hw, Hg. reflexivity.
  - cbn [load_rom]. unfold ret. rewrite Hw, Hg. reflexivity.
Qed.

Lemma gui_failed_load_changes_nothing_witness :
  GUI.handle (GUI.LoadClicked "bad.nes" (Some rom_truncated)) gui_loaded =
    Some (GUI.log_message "Failed to load ROM." gui_loaded) /\
  GUI.handle (GUI.LoadClicked "" (Some rom_16k)) gui_loaded =
    Some (GUI.log_message "Failed to load ROM." gui_loaded).
Proof.
  destruct gui_loaded_ready as [Hidle _].
  destruct (gui_failed_load_changes_nothing "bad.nes" (Some rom_truncated)
              gui_loaded Hidle) as [H1 _]; [vm_compute; reflexivity|].
  destruct (gui_failed_load_changes_nothing "" (Some rom_16k)
              gui_loaded Hidle) as [H2 _]; [reflexivity|].
  split; [exact H1 | exact H2].
Defined.

(** * Joining the loop thread *)

(** A thread that has ended stays ended, whoever moves. *)
Lemma step_keeps_exited (x : who) (w w' : world) (th : nat) :
  step x w = Some w' ->
  threads w !! th = Some Exited ->
  threads w' !! th = Some Exited.
Proof.
  intros Hstep Hth. destruct x as [|th']; cbn [step] in Hstep.
  - unfold caller_step in Hstep.
    destruct (caller w) as [|[| |j] k]; [discriminate| | |].
    + injection Hstep as <-. unfold start.
      destruct (running (nes w)); cbn [set_caller threads]; [exact Hth|].
      apply lookup_app_l_Some. exact Hth.
    + unfold stop in Hstep.
      destruct (negb (running (nes w))); [|destruct (thread (nes w))];
        injection Hstep as <-; exact Hth.
    + destruct (threads w !! j) as [[| |]|]; try discriminate.
      injection Hstep as <-. exact Hth.
  - destruct (threads w !! th') as [l|] eqn:Hl; [|discriminate].
    destruct (loop_step l (nes w)) as [[l' s']|] eqn:Hls; [|discriminate].
    injection Hstep as <-. cbn [threads].
    destruct (decide (th' = th)) as [->|Hne].
    + rewrite Hth in Hl. injection Hl as <-. discriminate.
    + rewrite list_lookup_insert_ne by exact Hne. exact Hth.
Qed.

(** The caller never gets more to do: a step of any thread leaves its
    list of pending calls as long as it was or shorter. *)
Lemma step_caller_length (x : who) (w w' : world) :
  step x w = Some w' -> (length (caller w') <= length (caller w))%nat.
Proof.
  intros Hstep. destruct x as [|th']; cbn [step] in Hstep.
  - unfold caller_step in Hstep.
    destruct (caller w) as [|[| |j] k]; [discriminate| | |].
    + injection Hstep as <-. cbn [set_caller caller length]. lia.
    + destruct (stop w) as [w1 [j|]]; injection Hstep as <-;
        cbn [set_caller caller length]; lia.
    + destruct (threads w !! j) as [[| |]|]; try discriminate.
      injection Hstep as <-. cbn [set_caller caller length]. lia.
  - destruct (threads w !! th') as [l|]; [|discriminate].
    destruct (loop_step l (nes w)) as [[l' s']|]; [|discriminate].
    injection Hstep as <-. cbn [caller]. lia.
Qed.

Lemma run_after_join (sched : list who) :
  forall (w w' : world) (th : nat) (n : nat),
  run sched w = Some w' ->
  threads w !! th = Some Exited ->
  (length (caller w) <= n)%nat ->
  threads w' !! th = Some Exited /\ (length (caller w') <= n)%nat.
Proof.
  induction sched as [|x sched IH]; intros w w' th n Hrun Hth Hlen.
  - injection Hrun as <-. split; assumption.
  - cbn [run] in Hrun. destruct (step x w) as [w1|] eqn:Hstep; [|discriminate].
    apply (IH w1 w' th n Hrun).
    + exact (step_keeps_exited x w w1 th Hstep Hth).
    + pose proof (step_caller_length x w w1 Hstep). lia.
Qed.

Lemma run_while_joining (sched : list who) :
  forall (w w' : world) (th : nat) (k : list call),
  run sched w = Some w' ->
  caller w = Join th :: k ->
  caller w' = Join th :: k \/ threads w' !! th = Some Exited.
Proof.
  induction sched as [|x sched IH]; intros w w' th k Hrun Hc.
  - injection Hrun as <-. left. exact Hc.
  - cbn [run] in Hrun. destruct (step x w) as [w1|] eqn:Hstep; [|discriminate].
    destruct x as [|th']; cbn [step] in Hstep.
    + unfold caller_step in Hstep. rewrite Hc in Hstep.
      destruct (threads w !! th) as [[| |]|] eqn:Hth; try discriminate.
      injection Hstep as <-. right.
      apply (run_after_join sched _ w' th (length k) Hrun); [exact Hth|].
      cbn [set_caller caller]. lia.
    + destruct (threads w !! th') as [l|]; [|discriminate].
      destruct (loop_step l (nes w)) as [[l' s']|]; [|discriminate].
      injection Hstep as <-.
      apply (IH _ w' th k Hrun). exact Hc.
Qed.

(** X19: when [stop()] is entered while [running] is set, it returns
    only after the thread [start()] recorded has ended: along any
    schedule that begins with the caller's [stop()], once the caller is
    past that call the thread is not alive any more. *)
Theorem stop_waits_for_the_thread
    (sched : list who) (w w' : world) (th : nat) (k : list call) :
  caller w = CallStop :: k ->
  running (nes w) = true ->
  thread (nes w) = Some th ->
  run (Caller :: sched) w = Some w' ->
  (length (caller w') <= length k)%nat ->
  threads w' !! th = Some Exited /\
  alive <$> threads w' !! th = Some false.
Proof.
  intros Hc Hrun Hthr Hsched Hpast.
  cbn [run step] in Hsched. unfold caller_step in Hsched.
  rewrite Hc, (stop_when_running w Hrun), Hthr in Hsched.
  assert (Hex : threads w' !! th = Some Exited).
  { destruct (run_while_joining sched _ w' th k Hsched) as [Hstill|Hex].
    - reflexivity.
    - rewrite Hstill in Hpast. cbn [length] in Hpast. lia.
    - exact Hex. }
  split; [exact Hex|]. rewrite Hex. reflexivity.
Qed.

Lemma stop_waits_for_the_thread_witness :
  run [Caller; Loop 0%nat; Caller] start_done = Some stop_done /\
  threads stop_done !! 0%nat = Some Exited.
Proof.
  assert (Hrun : run [Caller; Loop 0%nat; Caller] start_done = Some stop_done)
    by reflexivity.
  split; [exact Hrun|].
  destruct (stop_waits_for_the_thread [Loop 0%nat; Caller] start_done stop_done
              0%nat []) as [Hex _].
  - reflexivity.
  - reflexivity.
  - reflexivity.
  - exact Hrun.
  - cbn [length caller stop_done]. lia.
  - exact Hex.
Defined.
